(** * ScanNet data parser: a shallow embedding and its properties

    Source: [nerfstudio/data/dataparsers/scannet_dataparser.py].

    The development follows the Python module top to bottom: the float
    values held by numpy arrays and torch tensors, the exceptions a call
    can raise, the [pathlib] paths, the configuration dataclass, the numpy
    index helpers used by the train/eval split, the frame loop, the pose
    scaling, the point-cloud loader and finally
    [_generate_dataparser_outputs] itself.

    Numbers.  A float is an exact rational, one of the two infinities, or
    NaN.  Rounding to 24 or 53 bits and the sign of zero are not
    represented; the overflow of a double that is cast to single precision
    is, because the frame filter looks at the tensor after [.float()]. *)

From Stdlib Require Import ZArith QArith Qround Qabs Lia.
From stdpp Require Import base tactics option list sorting strings pretty gmap.

Local Open Scope Z_scope.

(** ** Exceptions and the result of a call *)

Inductive exn : Type :=
  | ValueError (msg : string)
  | IndexError
  | AssertionError
  | ZeroDivisionError
  | OverflowError
  | AttributeError
  | RuntimeError.

Inductive res (A : Type) : Type :=
  | Ok (a : A)
  | Raise (e : exn).
Arguments Ok {A} a.
Arguments Raise {A} e.

Definition res_bind {A B} (c : res A) (k : A -> res B) : res B :=
  match c with
  | Ok a => k a
  | Raise e => Raise e
  end.

Notation "'let*' x ':=' c 'in' k" := (res_bind c (fun x => k))
  (at level 10, x pattern, c at level 100, k at level 200).

(** Inversion of a successful chain of calls: every call of the chain
    returned. *)
Ltac inv_bind H :=
  repeat match type of H with
  | res_bind ?c _ = Ok _ =>
      let E := fresh "E" in
      destruct c eqn:E; cbn [res_bind] in H; [|discriminate H]
  end.

(** ** Float values *)

Inductive fval : Type :=
  | Fin (q : Q)
  | PInf
  | NInf
  | NaN.

Definition Qsign (q : Q) : Z := Z.sgn (Qnum q).

Definition finf (negative : bool) : fval := if negative then NInf else PInf.

(** [x * y] on floats (numpy, torch and Python agree on it). *)
Definition fmul (x y : fval) : fval :=
  match x, y with
  | NaN, _ | _, NaN => NaN
  | Fin a, Fin b => Fin (a * b)
  | Fin a, PInf | PInf, Fin a =>
      match Qsign a with 0 => NaN | Zpos _ => PInf | Zneg _ => NInf end
  | Fin a, NInf | NInf, Fin a =>
      match Qsign a with 0 => NaN | Zpos _ => NInf | Zneg _ => PInf end
  | PInf, PInf | NInf, NInf => PInf
  | PInf, NInf | NInf, PInf => NInf
  end.

Definition fadd (x y : fval) : fval :=
  match x, y with
  | NaN, _ | _, NaN => NaN
  | Fin a, Fin b => Fin (a + b)
  | PInf, NInf | NInf, PInf => NaN
  | PInf, _ | _, PInf => PInf
  | NInf, _ | _, NInf => NInf
  end.

Definition fneg (x : fval) : fval :=
  match x with
  | Fin a => Fin (- a)
  | PInf => NInf
  | NInf => PInf
  | NaN => NaN
  end.

(** [torch.abs] *)
Definition fabs (x : fval) : fval :=
  match x with
  | Fin a => Fin (Qabs a)
  | PInf | NInf => PInf
  | NaN => NaN
  end.

(** The binary step of [torch.max] over a tensor: a NaN wins. *)
Definition fmax (x y : fval) : fval :=
  match x, y with
  | NaN, _ | _, NaN => NaN
  | PInf, _ | _, PInf => PInf
  | NInf, v | v, NInf => v
  | Fin a, Fin b => if Qle_bool a b then Fin b else Fin a
  end.

(** [np.isinf] on one element. *)
Definition isinf (x : fval) : bool :=
  match x with
  | PInf | NInf => true
  | Fin _ | NaN => false
  end.

(** [np.isfinite] on one element. *)
Definition isfinite (x : fval) : bool :=
  match x with
  | Fin _ => true
  | PInf | NInf | NaN => false
  end.

Definition is_zero (x : fval) : bool :=
  match x with
  | Fin a => Qeq_bool a 0
  | _ => false
  end.

(** The quotient of two floats when the divisor is not zero. *)
Definition fdiv (x y : fval) : fval :=
  match x, y with
  | NaN, _ | _, NaN => NaN
  | Fin a, Fin b => Fin (a / b)
  | Fin _, (PInf | NInf) => Fin 0
  | PInf, Fin b => finf (Qsign b <? 0)
  | NInf, Fin b => finf (0 <? Qsign b)
  | (PInf | NInf), (PInf | NInf) => NaN
  end.

(** Python's [x / y] on two floats: a zero divisor raises. *)
Definition py_truediv (x y : fval) : res fval :=
  if is_zero y then Raise ZeroDivisionError else Ok (fdiv x y).

(** Casting a double to single precision ([.float()],
    [astype(np.float32)]): a magnitude of at least [2^128 - 2^103], the
    midpoint between the largest single and [2^128], becomes an infinity. *)
Definition float32_overflow : Q := inject_Z (2 ^ 128 - 2 ^ 103).

Definition to_float32 (x : fval) : fval :=
  match x with
  | Fin a =>
      if Qle_bool float32_overflow (Qabs a) then finf (Qsign a <? 0) else Fin a
  | v => v
  end.

(** ** Paths *)

(** A [pathlib.Path], as its components.  [Path("./a/b")] has the
    components [a], [b]: the leading dot is dropped by [pathlib]. *)
Record path : Type := Path { absolute : bool; parts : list string }.

#[global] Instance path_eq_dec : EqDecision path.
Proof. solve_decision. Defined.

(** [p / s] for a string [s] that is a single relative component. *)
Definition joinpath (p : path) (s : string) : path :=
  {| absolute := absolute p; parts := parts p ++ [s] |}.

Infix "//" := joinpath (at level 40, left associativity).

(** [p.name]: the final component, the empty string when there is none. *)
Definition name (p : path) : string := default EmptyString (last (parts p)).

(** ** Configuration *)

(** [ScanNetDataParserConfig].  The field [_target] is the class to
    instantiate and plays no role in the computations. *)
Record ScanNetDataParserConfig : Type := {
  data : path;
  scale_factor : fval;
  scene_scale : fval;
  center_method : string;
  auto_scale_poses : bool;
  train_split_fraction : fval;
  depth_unit_scale_factor : fval;
  load_3D_points : bool;
  point_cloud_color : bool;
  ply_file_path : path
}.

(** The class body is executed once, when the class is defined: [data] is
    bound to its default there and the default of [ply_file_path] is the
    value of [data / (data.name + ".ply")] at that moment. *)
Definition class_body_data : path :=
  Path false ["nvsmask3d"; "data"; "scene_example"].

Definition class_body_ply_file_path : path :=
  class_body_data // (name class_body_data +:+ ".ply").

(** The keyword arguments of the generated [__init__]: a field that is not
    passed takes the default stored on the class. *)
Record config_kwargs : Type := {
  kw_data : option path;
  kw_scale_factor : option fval;
  kw_scene_scale : option fval;
  kw_center_method : option string;
  kw_auto_scale_poses : option bool;
  kw_train_split_fraction : option fval;
  kw_depth_unit_scale_factor : option fval;
  kw_load_3D_points : option bool;
  kw_point_cloud_color : option bool;
  kw_ply_file_path : option path
}.

Definition no_kwargs : config_kwargs :=
  {| kw_data := None; kw_scale_factor := None; kw_scene_scale := None;
     kw_center_method := None; kw_auto_scale_poses := None;
     kw_train_split_fraction := None; kw_depth_unit_scale_factor := None;
     kw_load_3D_points := None; kw_point_cloud_color := None;
     kw_ply_file_path := None |}.

Definition new_config (kw : config_kwargs) : ScanNetDataParserConfig :=
  {| data := default class_body_data (kw_data kw);
     scale_factor := default (Fin 1) (kw_scale_factor kw);
     scene_scale := default (Fin 1) (kw_scene_scale kw);
     center_method := default "poses" (kw_center_method kw);
     auto_scale_poses := default true (kw_auto_scale_poses kw);
     train_split_fraction := default (Fin (9 # 10)) (kw_train_split_fraction kw);
     depth_unit_scale_factor :=
       default (Fin (1 # 1000)) (kw_depth_unit_scale_factor kw);
     load_3D_points := default true (kw_load_3D_points kw);
     point_cloud_color := default true (kw_point_cloud_color kw);
     ply_file_path := default class_body_ply_file_path (kw_ply_file_path kw) |}.

(** The default as the specification words it, [<root>/<root-name>.ply],
    for comparison with [ply_file_path]. *)
Definition spec_ply_file_path (root : path) : path :=
  root // (name root +:+ ".ply").

(** ** numpy and math helpers of the train/eval split *)

(** [math.ceil] on a float. *)
Definition math_ceil (x : fval) : res Z :=
  match x with
  | Fin q => Ok (Qceiling q)
  | PInf | NInf => Raise OverflowError
  | NaN => Raise (ValueError "cannot convert float NaN to integer")
  end.

(** [np.arange(n)] *)
Definition arange (n : Z) : list Z := seqZ 0 n.

(** [np.linspace(start, stop, num, dtype=int)] for integer end points:
    the samples are computed as floats, the last one is overwritten with
    [stop], and the integer dtype takes the floor of each. *)
Definition linspace_int (start stop num : Z) : res (list Z) :=
  if num <? 0 then Raise (ValueError "Number of samples must be non-negative")
  else
    let div := num - 1 in
    let delta := inject_Z (stop - start) in
    let y := inject_Z <$> arange num in
    let y :=
      if 0 <? div then
        let step := (delta / inject_Z div)%Q in
        if Qeq_bool step 0
        then (fun v => v / inject_Z div * delta)%Q <$> y
        else (fun v => v * step)%Q <$> y
      else (fun v => v * delta)%Q <$> y in
    let y := (fun v => v + inject_Z start)%Q <$> y in
    let y := if 1 <? num then <[Z.to_nat (num - 1) := inject_Z stop]> y else y in
    Ok (Qfloor <$> y).

(** [np.unique]: the sorted distinct values. *)
Fixpoint insert_unique (x : Z) (l : list Z) : list Z :=
  match l with
  | [] => [x]
  | y :: l' =>
      if x <? y then x :: l
      else if x =? y then l
      else y :: insert_unique x l'
  end.

Definition np_unique (l : list Z) : list Z := foldr insert_unique [] l.

(** [np.setdiff1d(ar1, ar2)]: the sorted distinct values of [ar1] that are
    not in [ar2]. *)
Definition setdiff1d (ar1 ar2 : list Z) : list Z :=
  let ar1 := np_unique ar1 in
  let ar2 := np_unique ar2 in
  filter (fun x => x ∉ ar2) ar1.

(** Lines 110-118: the number of training images, the two index arrays and
    the assertion on the size of the evaluation array. *)
Definition train_eval_indices (num_images : Z) (fraction : fval)
  : res (list Z * list Z) :=
  let* num_train_images := math_ceil (fmul (Fin (inject_Z num_images)) fraction) in
  let num_eval_images := num_images - num_train_images in
  let i_all := arange num_images in
  let* i_train := linspace_int 0 (num_images - 1) num_train_images in
  let i_eval := setdiff1d i_all i_train in
  if Z.of_nat (length i_eval) =? num_eval_images
  then Ok (i_train, i_eval)
  else Raise AssertionError.

(** Lines 119-124. *)
Definition select_split (split : string) (i_train i_eval : list Z)
  : res (list Z) :=
  if decide (split = "train") then Ok i_train
  else if decide (split ∈ ["val"; "test"]) then Ok i_eval
  else Raise (ValueError ("Unknown dataparser split " +:+ split)).

(** ** Arrays and tensors *)

(** A two-dimensional array is the list of its rows, a stack of arrays the
    list of its members. *)
Abbreviation matrix := (list (list fval)).

Fixpoint res_mapM {A B} (f : A -> res B) (l : list A) : res (list B) :=
  match l with
  | [] => Ok []
  | a :: l' =>
      let* b := f a in
      let* bs := res_mapM f l' in
      Ok (b :: bs)
  end.

(** [l[i]] on a Python list or along the first axis of a tensor: a negative
    index counts from the end, an index out of range raises. *)
Definition py_index {A} (l : list A) (i : Z) : res A :=
  let n := Z.of_nat (length l) in
  let j := if i <? 0 then i + n else i in
  if (0 <=? j) && (j <? n) then
    match l !! Z.to_nat j with
    | Some a => Ok a
    | None => Raise IndexError
    end
  else Raise IndexError.

(** [[l[i] for i in indices]] and [t[indices.tolist()]] *)
Definition gather {A} (l : list A) (indices : list Z) : res (list A) :=
  res_mapM (py_index l) indices.

(** [flat.reshape(rows, cols)] once the element count is known to fit. *)
Fixpoint rows_of (rows cols : nat) (flat : list fval) : matrix :=
  match rows with
  | O => []
  | S r => take cols flat :: rows_of r cols (drop cols flat)
  end.

(** [np.array(a).reshape(4, 4)] *)
Definition reshape_4_4 (a : matrix) : res matrix :=
  let flat := concat a in
  if decide (length flat = 16%nat) then Ok (rows_of 4 4 flat)
  else Raise (ValueError "cannot reshape array into shape (4,4)").

(** [m[:rows, col] *= s], in place. *)
Definition mul_column (rows col : nat) (s : fval) (m : matrix) : matrix :=
  imap (fun r row =>
          if decide (r < rows)%nat then alter (fun v => fmul v s) col row
          else row) m.

(** [a.astype(np.float32)], [t.float()] *)
Definition astype_float32 (m : matrix) : matrix :=
  (fun row : list fval => to_float32 <$> row) <$> m.

(** [np.isinf(a).any()] *)
Definition any_isinf (m : matrix) : bool := existsb (existsb isinf) m.

(** [np.stack(arrays).astype(np.float32)].  The arrays stacked by the
    parser have one shape (every pose is 4x4, every intrinsics entry is the
    same [K]), so the only failure is the empty list. *)
Definition np_stack_float32 (arrays : list matrix) : res (list matrix) :=
  match arrays with
  | [] => Raise (ValueError "need at least one array to stack")
  | _ => Ok (astype_float32 <$> arrays)
  end.

(** [t[:, :rows, col]]: the column must exist in every row read. *)
Definition column_slice (rows col : nat) (t : list matrix)
  : res (list (list fval)) :=
  res_mapM (fun m =>
    res_mapM (fun row : list fval =>
      match row !! col with
      | Some v => Ok v
      | None => Raise IndexError
      end) (take rows m)) t.

(** [t[:, r, c]] *)
Definition entry_slice (r c : nat) (t : list matrix) : res (list fval) :=
  res_mapM (fun m : matrix =>
    match m !! r with
    | Some row =>
        match row !! c with
        | Some v => Ok v
        | None => Raise IndexError
        end
    | None => Raise IndexError
    end) t.

(** [torch.max] of all elements of a tensor. *)
Definition torch_max (elements : list fval) : res fval :=
  match elements with
  | [] => Raise RuntimeError
  | v :: vs => Ok (foldl fmax v vs)
  end.

Definition dot (u v : list fval) : fval :=
  foldr fadd (Fin 0) (zip_with fmul u v).

Definition ncols (m : matrix) : nat :=
  match m with
  | [] => 0%nat
  | row :: _ => length row
  end.

Definition column (j : nat) (m : matrix) : list fval :=
  omap (fun row : list fval => row !! j) m.

(** [m.T] *)
Definition transpose (m : matrix) : matrix :=
  (fun j => column j m) <$> seq 0 (ncols m).

(** [a @ b]: the inner dimensions must agree. *)
Definition matmul (a b : matrix) : res matrix :=
  if decide (Forall (fun row : list fval => length row = length b) a) then
    Ok ((fun row => (fun j => dot row (column j b)) <$> seq 0 (ncols b)) <$> a)
  else Raise RuntimeError.

(** ** The world outside the parser *)

Record point_cloud : Type := {
  points : list (fval * fval * fval);
  colors : list (fval * fval * fval)
}.

(** What the file system and the image, text and point-cloud readers
    answer.  [iterdir_sorted d] is
    [list(sorted(d.iterdir(), key=lambda x: int(x.name.split(".")[0])))];
    [imread_shape] is the [(height, width)] of [cv2.imread], which returns
    [None] for a file it cannot decode. *)
Record World : Type := {
  iterdir_sorted : path -> res (list path);
  imread_shape : path -> option (Z * Z);
  loadtxt : path -> res matrix;
  read_point_cloud : path -> point_cloud
}.

(** ** The frame loop (lines 91-107) *)

Record frame_arrays : Type := {
  fa_image_filenames : list path;
  fa_depth_filenames : list path;
  fa_intrinsics : list matrix;
  fa_poses : list matrix
}.

Definition no_frames : frame_arrays :=
  {| fa_image_filenames := []; fa_depth_filenames := [];
     fa_intrinsics := []; fa_poses := [] |}.

(** Lines 97-98 *)
Definition flip_axes (pose : matrix) : matrix :=
  mul_column 3 2 (Fin (-1)) (mul_column 3 1 (Fin (-1)) pose).

(** Lines 95-99 *)
Definition read_pose (w : World) (pose_file : path) : res matrix :=
  let* a := loadtxt w pose_file in
  let* pose := reshape_4_4 a in
  Ok (astype_float32 (flip_axes pose)).

Definition append_frame (acc : frame_arrays) (img depth : path) (K pose : matrix)
  : frame_arrays :=
  {| fa_image_filenames := fa_image_filenames acc ++ [img];
     fa_depth_filenames := fa_depth_filenames acc ++ [depth];
     fa_intrinsics := fa_intrinsics acc ++ [K];
     fa_poses := fa_poses acc ++ [pose] |}.

Fixpoint frame_loop (w : World) (K : matrix)
    (files : list (path * path * path)) (acc : frame_arrays) : res frame_arrays :=
  match files with
  | [] => Ok acc
  | (img, depth, pose_file) :: rest =>
      let* pose := read_pose w pose_file in
      if any_isinf pose then frame_loop w K rest acc
      else frame_loop w K rest (append_frame acc img depth K pose)
  end.

(** [zip(img_dir_sorted, depth_dir_sorted, pose_dir_sorted)] *)
Definition zip3 (a b c : list path) : list (path * path * path) :=
  zip (zip a b) c.

(** ** The point-cloud loader *)

Inductive meta_value : Type :=
  | MNone
  | MPaths (l : list path)
  | MFloat (v : fval)
  | MTensor (t : matrix)
  | MByteTensor (t : list (list Z)).

Definition row_of (p : fval * fval * fval) : list fval :=
  let '(x, y, z) := p in [x; y; z].

(** [(c * 255).astype(np.uint8)] on one element: truncation toward zero,
    then the low eight bits.  The cast of a NaN or an infinity is left to
    the platform by numpy; it is 0 here. *)
Definition astype_uint8 (v : fval) : Z :=
  match v with
  | Fin q => Z.modulo (Z.quot (Qnum q) (Zpos (Qden q))) 256
  | _ => 0
  end.

Definition _load_3D_points (w : World) (ply_file_path : path)
    (transform_matrix : matrix) (scale_factor : fval) (points_color : bool)
  : res (option (gmap string meta_value)) :=
  let pcd := read_point_cloud w ply_file_path in
  if decide (length (points pcd) = 0%nat) then Ok None
  else
    let points3D := astype_float32 (row_of <$> points pcd) in
    let ones := (fun p : list fval => (fun _ => Fin 1) <$> take 1 p) <$> points3D in
    let* points3D := matmul (zip_with app points3D ones) (transpose transform_matrix) in
    let points3D :=
      (fun p : list fval => (fun v => fmul v scale_factor) <$> p) <$> points3D in
    let out : gmap string meta_value := {[ "points3D_xyz" := MTensor points3D ]} in
    let out :=
      if points_color then
        <[ "points3D_rgb" :=
             MByteTensor
               ((fun p : list fval =>
                   (fun c => astype_uint8 (fmul c (Fin 255))) <$> p)
                  <$> (row_of <$> colors pcd)) ]> out
      else out in
    Ok (Some out).

(** ** The output bundle *)

Record SceneBox : Type := { aabb : matrix }.

Inductive CameraType : Type := PERSPECTIVE.

Record Cameras : Type := {
  fx : list fval;
  fy : list fval;
  cx : list fval;
  cy : list fval;
  height : Z;
  width : Z;
  camera_to_worlds : list matrix;
  camera_type : CameraType
}.

Record DataparserOutputs : Type := {
  image_filenames : list path;
  cameras : Cameras;
  scene_box : SceneBox;
  dataparser_scale : fval;
  dataparser_transform : matrix;
  metadata : gmap string meta_value
}.

(** ** The parser *)

(** The body of [_generate_dataparser_outputs] is cut at the comments of
    the source into the stages below; each stage hands its local variables
    to the next. *)

Record loaded : Type := {
  ld_height : Z;
  ld_width : Z;
  ld_frames : frame_arrays
}.

(** Lines 80-107: the sorted listings, the size of the first image, the
    shared intrinsics and the frame loop. *)
Definition load_frames (config : ScanNetDataParserConfig) (w : World)
  : res loaded :=
  let image_dir := data config // "color" in
  let depth_dir := data config // "depth" in
  let pose_dir := data config // "pose" in
  let* img_dir_sorted := iterdir_sorted w image_dir in
  let* depth_dir_sorted := iterdir_sorted w depth_dir in
  let* pose_dir_sorted := iterdir_sorted w pose_dir in
  let* first_img_path := py_index img_dir_sorted 0 in
  let* hw :=
    match imread_shape w first_img_path with
    | Some hw => Ok hw
    | None => Raise AttributeError
    end in
  let* K := loadtxt w (data config // "intrinsic" // "intrinsic_color.txt") in
  let* frames :=
    frame_loop w K (zip3 img_dir_sorted depth_dir_sorted pose_dir_sorted)
      no_frames in
  Ok {| ld_height := hw.1; ld_width := hw.2; ld_frames := frames |}.

(** Lines 110-124 *)
Definition split_indices (config : ScanNetDataParserConfig)
    (frames : frame_arrays) (split : string) : res (list Z) :=
  let num_images := Z.of_nat (length (fa_image_filenames frames)) in
  let* tr_ev := train_eval_indices num_images (train_split_fraction config) in
  select_split split tr_ev.1 tr_ev.2.

(** Lines 136-139 *)
Definition pose_scale_factor (config : ScanNetDataParserConfig)
    (poses : list matrix) : res fval :=
  let scale := Fin 1 in
  let* scale :=
    if auto_scale_poses config then
      let* t := column_slice 3 3 poses in
      let* m := torch_max (fabs <$> concat t) in
      py_truediv scale m
    else Ok scale in
  Ok (fmul scale (scale_factor config)).

(** Line 141: [poses[:, :3, 3] *= scale_factor] *)
Definition scale_translations (scale : fval) (poses : list matrix)
  : res (list matrix) :=
  let* _ := column_slice 3 3 poses in
  Ok (mul_column 3 3 scale <$> poses).

(** Lines 143-189: the gathering by split index, the scene box, the
    cameras, the metadata and the bundle. *)
Definition assemble (config : ScanNetDataParserConfig) (w : World)
    (ld : loaded) (indices : list Z) (intrinsics poses : list matrix)
    (transform_matrix : matrix) (scale : fval) : res DataparserOutputs :=
  let frames := ld_frames ld in
  let* image_filenames := gather (fa_image_filenames frames) indices in
  let* depth_filenames :=
    if decide (0 < length (fa_depth_filenames frames))%nat
    then gather (fa_depth_filenames frames) indices
    else Ok [] in
  let* intrinsics := gather intrinsics indices in
  let* poses := gather poses indices in
  let aabb_scale := scene_scale config in
  let scene_box :=
    {| aabb := astype_float32
                 [ [fneg aabb_scale; fneg aabb_scale; fneg aabb_scale];
                   [aabb_scale; aabb_scale; aabb_scale] ] |} in
  let* fx := entry_slice 0 0 intrinsics in
  let* fy := entry_slice 1 1 intrinsics in
  let* cx := entry_slice 0 2 intrinsics in
  let* cy := entry_slice 1 2 intrinsics in
  let cameras :=
    {| fx := fx; fy := fy; cx := cx; cy := cy;
       height := ld_height ld; width := ld_width ld;
       camera_to_worlds := (fun m : matrix => take 4 <$> take 3 m) <$> poses;
       camera_type := PERSPECTIVE |} in
  let metadata : gmap string meta_value :=
    {[ "depth_filenames" :=
         (if decide (0 < length depth_filenames)%nat
          then MPaths depth_filenames else MNone);
       "depth_unit_scale_factor" := MFloat (depth_unit_scale_factor config) ]} in
  let* metadata :=
    if load_3D_points config then
      let* point_cloud_data :=
        _load_3D_points w (ply_file_path config) transform_matrix scale
          (point_cloud_color config) in
      match point_cloud_data with
      | Some d => Ok (d ∪ metadata)
      | None => Ok metadata
      end
    else Ok metadata in
  Ok {| image_filenames := image_filenames;
        cameras := cameras;
        scene_box := scene_box;
        dataparser_scale := scale;
        dataparser_transform := transform_matrix;
        metadata := metadata |}.

Section ScanNet.

(** [camera_utils.auto_orient_and_center_poses(poses, method,
    center_method)] lives in another module of the package.  It is a
    function of its arguments and returns the re-centred poses with the
    transform it applied, or raises. *)
Variable auto_orient_and_center_poses :
  string -> string -> list matrix -> res (list matrix * matrix).

Record centered : Type := {
  ct_intrinsics : list matrix;
  ct_poses : list matrix;
  ct_transform : matrix
}.

(** Lines 126-133 *)
Definition center_poses (config : ScanNetDataParserConfig)
    (frames : frame_arrays) : res centered :=
  let* poses := np_stack_float32 (fa_poses frames) in
  let* intrinsics := np_stack_float32 (fa_intrinsics frames) in
  let* oriented :=
    auto_orient_and_center_poses "none" (center_method config) poses in
  Ok {| ct_intrinsics := intrinsics;
        ct_poses := oriented.1;
        ct_transform := oriented.2 |}.

Definition _generate_dataparser_outputs (config : ScanNetDataParserConfig)
    (w : World) (split : string) : res DataparserOutputs :=
  let* ld := load_frames config w in
  let* indices := split_indices config (ld_frames ld) split in
  let* c := center_poses config (ld_frames ld) in
  let* scale := pose_scale_factor config (ct_poses c) in
  let* poses := scale_translations scale (ct_poses c) in
  assemble config w ld indices (ct_intrinsics c) poses (ct_transform c) scale.

End ScanNet.

(** ** The centring helper *)

(** [torch.mean(origins, dim=0)] for a stack of 3-vectors. *)
Definition mean_rows (rows : list (list fval)) : list fval :=
  let n := Fin (1 / inject_Z (Z.of_nat (length rows))) in
  (fun j => fmul (foldr fadd (Fin 0) (column j rows)) n) <$> seq 0 3.

Definition centering_transform (translation : list fval) : matrix :=
  imap (fun r row => row ++ [default (Fin 0) (fneg <$> translation !! r)])
       [ [Fin 1; Fin 0; Fin 0]; [Fin 0; Fin 1; Fin 0]; [Fin 0; Fin 0; Fin 1] ]
  ++ [ [Fin 0; Fin 0; Fin 0; Fin 1] ].

(** Modelled from the spec: [camera_utils.auto_orient_and_center_poses],
    which is defined in [nerfstudio/cameras/camera_utils.py] and not in the
    parser's module.  With the orientation mode "none" there is no
    re-orientation: "poses" centres on the average camera position, "focus"
    on an estimated look-at point (the estimate is the argument
    [focus_of_attention]), "none" disables centring; the result is one 4x4
    transform, applied identically to every pose. *)
Definition auto_orient_and_center_poses_model
    (focus_of_attention : list matrix -> list fval)
    (method center_method : string) (poses : list matrix)
  : res (list matrix * matrix) :=
  if decide (method = "none") then
    let* origins := column_slice 3 3 poses in
    let* translation :=
      if decide (center_method = "poses") then Ok (mean_rows origins)
      else if decide (center_method = "focus") then Ok (focus_of_attention poses)
      else if decide (center_method = "none") then Ok [Fin 0; Fin 0; Fin 0]
      else Raise (ValueError ("Unknown value for center_method: " +:+ center_method)) in
    let transform := centering_transform translation in
    let* oriented := res_mapM (matmul transform) poses in
    Ok (oriented, transform)
  else Raise (ValueError ("Unknown value for method: " +:+ method)).

(** ** Sample scenes *)

Module Samples.

Definition root : path := Path true ["scans"; "scene0000_00"].

Definition frame_file (dir ext : string) (id : nat) : path :=
  root // dir // (pretty id +:+ ext).

Definition rigid (tx ty tz : fval) : matrix :=
  [ [Fin 1; Fin 0; Fin 0; tx];
    [Fin 0; Fin 1; Fin 0; ty];
    [Fin 0; Fin 0; Fin 1; tz];
    [Fin 0; Fin 0; Fin 0; Fin 1] ].

Definition K0 : matrix :=
  [ [Fin 1170; Fin 0; Fin 647; Fin 0];
    [Fin 0; Fin 1170; Fin 483; Fin 0];
    [Fin 0; Fin 0; Fin 1; Fin 0];
    [Fin 0; Fin 0; Fin 0; Fin 1] ].

(** A scene with the frames [0 .. n-1]; [pose_of id] is the content of
    the pose file of frame [id]. *)
Definition scene (n : nat) (pose_of : nat -> matrix) (pcd : point_cloud)
  : World :=
  {| iterdir_sorted := fun d =>
       if decide (d = root // "color") then Ok (frame_file "color" ".jpg" <$> seq 0 n)
       else if decide (d = root // "depth") then Ok (frame_file "depth" ".png" <$> seq 0 n)
       else if decide (d = root // "pose") then Ok (frame_file "pose" ".txt" <$> seq 0 n)
       else Raise (ValueError "no such directory");
     imread_shape := fun _ => Some (968, 1296);
     loadtxt := fun f =>
       if decide (f = root // "intrinsic" // "intrinsic_color.txt") then Ok K0
       else
         match list_find (fun id => frame_file "pose" ".txt" id = f) (seq 0 n) with
         | Some (_, id) => Ok (pose_of id)
         | None => Raise (ValueError "no such file")
         end;
     read_point_cloud := fun _ => pcd |}.

Definition no_points : point_cloud := {| points := []; colors := [] |}.

Definition three_points : point_cloud :=
  {| points := [ (Fin 1, Fin 2, Fin 3); (Fin 0, Fin 0, Fin 0); (Fin (-4), Fin 2, Fin 6) ];
     colors := [ (Fin 1, Fin 0, Fin (1 # 2)); (Fin 0, Fin 0, Fin 0); (Fin 1, Fin 1, Fin 1) ] |}.

(** Camera [id] sits at [(id, 2 id, 0)]. *)
Definition walk (id : nat) : matrix :=
  rigid (Fin (inject_Z (Z.of_nat id))) (Fin (inject_Z (2 * Z.of_nat id))) (Fin 0).

(** Frame 1 has a NaN in its translation. *)
Definition nan_walk (id : nat) : matrix :=
  if decide (id = 1%nat) then rigid NaN (Fin 0) (Fin 0) else walk id.

(** Frame 1 is an invalid pose as the dataset writes it: all [-inf]. *)
Definition inf_walk (id : nat) : matrix :=
  if decide (id = 1%nat) then replicate 4 (replicate 4 NInf) else walk id.

Definition files (n : nat) : list (path * path * path) :=
  zip3 (frame_file "color" ".jpg" <$> seq 0 n)
       (frame_file "depth" ".png" <$> seq 0 n)
       (frame_file "pose" ".txt" <$> seq 0 n).

Definition config : ScanNetDataParserConfig :=
  new_config {| kw_data := Some root; kw_scale_factor := None;
                kw_scene_scale := None; kw_center_method := None;
                kw_auto_scale_poses := None; kw_train_split_fraction := None;
                kw_depth_unit_scale_factor := None; kw_load_3D_points := None;
                kw_point_cloud_color := None; kw_ply_file_path := None |}.

Definition no_focus (_ : list matrix) : list fval := [Fin 0; Fin 0; Fin 0].

Definition parse := _generate_dataparser_outputs
                      (auto_orient_and_center_poses_model no_focus).

End Samples.

(** ** Reference statements *)

(** [m[r, c]], when it exists. *)
Definition entry (m : matrix) (r c : nat) : option fval :=
  row ← m !! r; row !! c.

(** The frames a one-pass reading of the loop keeps: the files paired with
    their sanitized poses, without those whose pose holds an infinity. *)
Definition kept_frames (files : list (path * path * path)) (poses : list matrix)
  : list (path * path * path * matrix) :=
  filter (fun x => any_isinf x.2 = false) (zip files poses).

Definition frames_of (K : matrix) (kept : list (path * path * path * matrix))
  : frame_arrays :=
  {| fa_image_filenames := (fun x => x.1.1.1) <$> kept;
     fa_depth_filenames := (fun x => x.1.1.2) <$> kept;
     fa_intrinsics := (fun _ => K) <$> kept;
     fa_poses := snd <$> kept |}.

Definition fa_app (a b : frame_arrays) : frame_arrays :=
  {| fa_image_filenames := fa_image_filenames a ++ fa_image_filenames b;
     fa_depth_filenames := fa_depth_filenames a ++ fa_depth_filenames b;
     fa_intrinsics := fa_intrinsics a ++ fa_intrinsics b;
     fa_poses := fa_poses a ++ fa_poses b |}.

Definition all_finite (pose : matrix) : Prop :=
  Forall (Forall (fun v => isfinite v = true)) pose.

(** C3 as it is written: every pose that is kept has finite elements
    only. *)
Definition stated_finite_filter : Prop :=
  forall (w : World) (K : matrix) (files : list (path * path * path))
         (frames : frame_arrays),
    frame_loop w K files no_frames = Ok frames ->
    Forall all_finite (fa_poses frames).

(** The claim of C7 as it is written: nine training images,
    [{0,1,2,3,4,6,7,8,9}] for training and [{5}] for evaluation. *)
Definition stated_split_example : Prop :=
  exists i_train i_eval,
    train_eval_indices 10 (Fin (9 # 10)) = Ok (i_train, i_eval) /\
    length i_train = 9%nat /\
    (forall x, x ∈ i_train <-> x ∈ [0; 1; 2; 3; 4; 6; 7; 8; 9]) /\
    (forall x, x ∈ i_eval <-> x ∈ [5]).


(** The largest absolute translation component of a stack of poses, as
    line 138 computes it. *)
Definition max_abs_translation (poses : list matrix) : res fval :=
  let* t := column_slice 3 3 poses in
  torch_max (fabs <$> concat t).

(** The splits the parser knows. *)
Definition known_split (split : string) : Prop :=
  split = "train" \/ split = "val" \/ split = "test".

(** A point as the loader holds it after line 215: in single precision. *)
Definition float32_point (p : fval * fval * fval) : list fval :=
  to_float32 <$> row_of p.

(** The transformed position in the words of the specification: the
    position with 1 appended, multiplied by the transpose of the transform
    (entry [j] is the product with row [j] of the transform), then scaled. *)
Definition transformed_point (T : matrix) (s : fval) (p : list fval) : list fval :=
  (fun row => fmul (dot (p ++ [Fin 1]) row) s) <$> T.

(** The shape every pose has after [reshape(4, 4)]. *)
Definition shape_4_4 (m : matrix) : Prop :=
  length m = 4%nat /\ Forall (fun row : list fval => length row = 4%nat) m.

(** A number of a pose file that is an infinity once it is held in single
    precision: an infinity, or a finite value of magnitude at least
    [float32_overflow]. *)
Definition infinite_as_float32 (v : fval) : bool := isinf (to_float32 v).

(** The metadata before the point cloud is added (lines 169-172). *)
Definition depth_metadata (config : ScanNetDataParserConfig)
    (depth_filenames : list path) : gmap string meta_value :=
  {[ "depth_filenames" :=
       (if decide (0 < length depth_filenames)%nat
        then MPaths depth_filenames else MNone);
     "depth_unit_scale_factor" := MFloat (depth_unit_scale_factor config) ]}.

(** Line 145: the depth paths of the split. *)
Definition gather_depth (frames : frame_arrays) (indices : list Z)
  : res (list path) :=
  if decide (0 < length (fa_depth_filenames frames))%nat
  then gather (fa_depth_filenames frames) indices
  else Ok [].

(** Lines 174-179: the metadata once the point cloud has been looked at. *)
Definition with_point_cloud (config : ScanNetDataParserConfig) (w : World)
    (transform_matrix : matrix) (scale : fval)
    (metadata : gmap string meta_value) : res (gmap string meta_value) :=
  if load_3D_points config then
    let* point_cloud_data :=
      _load_3D_points w (ply_file_path config) transform_matrix scale
        (point_cloud_color config) in
    match point_cloud_data with
    | Some d => Ok (d ∪ metadata)
    | None => Ok metadata
    end
  else Ok metadata.

(** A translation component inside the box [[-1, 1]]. *)
Definition in_unit_box (v : fval) : Prop :=
  exists q, v = Fin q /\ (Qabs q <= 1)%Q.

(** * Properties *)

(** ** Float values *)

Lemma Qmult_neg1_r (q : Q) : (q * (-1 # 1))%Q = (- q)%Q.
Proof.
  destruct q as [n d]. unfold Qmult, Qopp. simpl.
  f_equal; [lia | apply Pos.mul_1_r].
Qed.

Lemma fmul_neg1_r (v : fval) : fmul v (Fin (-1)) = fneg v.
Proof. destruct v; simpl; try reflexivity. by rewrite Qmult_neg1_r. Qed.

Lemma Qmult_1_l_eq (q : Q) : (1 * q)%Q = q.
Proof. destruct q as [n d]. unfold Qmult. simpl. by destruct n. Qed.

Lemma fmul_1_l (v : fval) : fmul (Fin 1) v = v.
Proof. destruct v; simpl; try reflexivity. by rewrite Qmult_1_l_eq. Qed.

Lemma Qplus_0_r_eq (q : Q) : (q + 0)%Q = q.
Proof.
  destruct q as [n d]. unfold Qplus. simpl.
  f_equal; [lia | apply Pos.mul_1_r].
Qed.

Lemma fadd_0_r (v : fval) : fadd v (Fin 0) = v.
Proof. destruct v; simpl; try reflexivity. by rewrite Qplus_0_r_eq. Qed.

(** ** The configuration *)

Lemma class_body_ply_file_path_eq :
  class_body_ply_file_path
  = Path false ["nvsmask3d"; "data"; "scene_example"; "scene_example.ply"].
Proof. reflexivity. Qed.

(** Without an explicit [ply_file_path], the field is the path computed in
    the class body, whatever [data] is passed. *)
Lemma ply_file_path_default (kw : config_kwargs) :
  kw_ply_file_path kw = None ->
  ply_file_path (new_config kw) = class_body_ply_file_path.
Proof. intros H. unfold new_config. simpl. by rewrite H. Qed.

(** With no argument at all the two paths agree. *)
Lemma ply_file_path_no_kwargs :
  ply_file_path (new_config no_kwargs)
  = spec_ply_file_path (data (new_config no_kwargs)).
Proof. reflexivity. Qed.

(** C9.  With the data root set to [/scans/scene0000_00] and no
    [ply_file_path] given, the point-cloud path of the configuration is
    still [nvsmask3d/data/scene_example/scene_example.ply], the value
    computed once from the default root, and not
    [/scans/scene0000_00/scene0000_00.ply]. *)
Theorem ply_file_path_keeps_class_default :
  data Samples.config = Samples.root /\
  ply_file_path Samples.config
  = Path false ["nvsmask3d"; "data"; "scene_example"; "scene_example.ply"] /\
  spec_ply_file_path (data Samples.config)
  = Path true ["scans"; "scene0000_00"; "scene0000_00.ply"] /\
  ply_file_path Samples.config <> spec_ply_file_path (data Samples.config).
Proof. repeat split. discriminate. Qed.

(** ** The axis flip *)

Lemma entry_mul_column (rows col : nat) (s : fval) (m : matrix) (r c : nat) :
  entry (mul_column rows col s m) r c
  = (if decide ((r < rows)%nat /\ c = col) then fun v => fmul v s else id)
      <$> entry m r c.
Proof.
  unfold entry, mul_column. rewrite list_lookup_imap.
  destruct (m !! r) as [row|]; simpl; [|done].
  destruct (decide (r < rows)%nat) as [Hr|Hr].
  - destruct (decide (c = col)) as [->|Hc].
    + rewrite list_lookup_alter_eq. rewrite decide_True by done. done.
    + rewrite list_lookup_alter_ne by done. rewrite decide_False by tauto.
      by destruct (row !! c).
  - rewrite decide_False by tauto. by destruct (row !! c).
Qed.

(** C5.  The flip of lines 97-98 replaces the entries [r, 1] and [r, 2]
    with [r < 3] by their negation and leaves every other entry as it was:
    column 0, column 3 and row 3 are unchanged.  This holds for every
    matrix, in particular for a 4x4 pose with bottom row (0, 0, 0, 1). *)
Theorem flip_axes_negates_columns_1_2 (pose : matrix) (r c : nat) :
  entry (flip_axes pose) r c
  = (if decide ((r < 3)%nat /\ (c = 1%nat \/ c = 2%nat)) then fneg else id)
      <$> entry pose r c.
Proof.
  unfold flip_axes. rewrite !entry_mul_column.
  destruct (entry pose r c) as [v|]; simpl; [|done].
  repeat case_decide; simpl; rewrite ?fmul_neg1_r; try done; lia.
Qed.

(** The same on a homogeneous pose written out. *)
Lemma flip_axes_homogeneous (r00 r01 r02 r10 r11 r12 r20 r21 r22 t0 t1 t2 : fval) :
  flip_axes [ [r00; r01; r02; t0]; [r10; r11; r12; t1]; [r20; r21; r22; t2];
              [Fin 0; Fin 0; Fin 0; Fin 1] ]
  = [ [r00; fneg r01; fneg r02; t0]; [r10; fneg r11; fneg r12; t1];
      [r20; fneg r21; fneg r22; t2]; [Fin 0; Fin 0; Fin 0; Fin 1] ].
Proof.
  unfold flip_axes, mul_column. simpl. by rewrite !fmul_neg1_r.
Qed.

(** ** The train/eval split *)

Section SortedLists.

Lemma StronglySorted_seq (a n : nat) : StronglySorted lt (seq a n).
Proof.
  revert a. induction n as [|n IH]; intros a; simpl; constructor; [apply IH|].
  apply Forall_forall. intros x Hx. apply elem_of_seq in Hx. lia.
Qed.

Lemma StronglySorted_seqZ (m n : Z) : StronglySorted Z.lt (seqZ m n).
Proof.
  unfold seqZ. eapply StronglySorted_fmap; [|apply StronglySorted_seq].
  intros x y Hxy. simpl in *. lia.
Qed.

Lemma StronglySorted_filter {A} (R : relation A) (P : A -> Prop)
    `{forall x, Decision (P x)} (l : list A) :
  StronglySorted R l -> StronglySorted R (filter P l).
Proof.
  intros Hs. induction Hs as [|x l Hl IH Hx]; [constructor|].
  rewrite filter_cons. case_decide; [|done].
  constructor; [done|]. apply Forall_forall. intros y Hy.
  apply list_elem_of_filter in Hy as [_ Hy].
  rewrite Forall_forall in Hx. auto.
Qed.

Lemma StronglySorted_lt_NoDup (l : list Z) : StronglySorted Z.lt l -> NoDup l.
Proof.
  induction 1 as [|x l Hl IH Hx]; constructor; [|done].
  intros Hin. rewrite Forall_forall in Hx. specialize (Hx _ Hin). lia.
Qed.

(** On strictly ascending input [np.unique] has nothing to do. *)
Lemma np_unique_sorted (l : list Z) : StronglySorted Z.lt l -> np_unique l = l.
Proof.
  induction 1 as [|x l Hl IH Hx]; [done|].
  unfold np_unique in *. simpl. rewrite IH.
  destruct l as [|y l']; [done|]. simpl.
  apply Forall_cons in Hx as [Hxy _].
  by rewrite (proj2 (Z.ltb_lt x y)).
Qed.


End SortedLists.

Section Linspace.

Lemma Qfloor_affine (i delta div start : Z) :
  0 < div ->
  Qfloor (inject_Z i * (inject_Z delta / inject_Z div) + inject_Z start)
  = start + (i * delta) / div.
Proof.
  intros Hdiv.
  replace (start + i * delta / div) with ((i * delta + start * div) / div)
    by (rewrite Z.div_add by lia; lia).
  rewrite Zdiv_Qdiv. apply Qfloor_comp.
  rewrite inject_Z_plus, !inject_Z_mult. field.
  intros H0. apply (Qeq_bool_neq (inject_Z div) 0); [|done].
  unfold Qeq_bool. simpl. rewrite Z.mul_1_r. apply Z.eqb_neq. lia.
Qed.

Lemma inject_Z_div_nonzero (delta div : Z) :
  0 < div -> Qeq_bool (inject_Z delta / inject_Z div) 0 = true -> delta = 0.
Proof.
  intros Hdiv H. apply Qeq_bool_eq in H.
  unfold Qeq, Qdiv, Qmult, Qinv, inject_Z in H. simpl in H.
  destruct div as [|p|p]; try lia. simpl in H. lia.
Qed.

Lemma Qfloor_zero_step (i div start : Z) :
  0 < div ->
  Qfloor (inject_Z i / inject_Z div * inject_Z 0 + inject_Z start) = start.
Proof.
  intros Hdiv. rewrite <- (Qfloor_Z start) at 2. apply Qfloor_comp.
  field. intros H0.
  apply (Qeq_bool_neq (inject_Z div) 0); [|done].
  unfold Qeq_bool. simpl. rewrite Z.mul_1_r. apply Z.eqb_neq. lia.
Qed.

(** One sample: the start. *)
Lemma linspace_int_1 (start stop : Z) : linspace_int start stop 1 = Ok [start].
Proof.
  unfold linspace_int. simpl. do 2 f_equal.
  change (Z.pos (1 * 1 * 1)) with 1. change (Z.pos (1 * 1)) with 1.
  rewrite Z.div_1_r. lia.
Qed.

(** Two samples or more: sample [i] is the floor of
    [start + i * (stop - start) / (num - 1)]; in exact arithmetic the
    overwritten last sample already was [stop]. *)
Lemma linspace_int_ge_2 (start stop num : Z) :
  2 <= num ->
  linspace_int start stop num
  = Ok ((fun i => start + (i * (stop - start)) / (num - 1)) <$> arange num).
Proof.
  intros Hnum. unfold linspace_int, arange.
  rewrite (proj2 (Z.ltb_ge num 0)) by lia.
  rewrite (proj2 (Z.ltb_lt 0 (num - 1))) by lia.
  rewrite (proj2 (Z.ltb_lt 1 num)) by lia.
  f_equal. apply list_eq. intros i.
  rewrite !list_lookup_fmap.
  destruct (decide (i = Z.to_nat (num - 1))) as [->|Hi].
  - rewrite list_lookup_insert_eq.
    2:{ destruct (Qeq_bool _ _); rewrite !length_fmap, length_seqZ; lia. }
    rewrite lookup_seqZ_lt by lia. simpl. f_equal.
    rewrite Z.div_1_r, Z2Nat.id, Z.add_0_l by lia.
    rewrite Z.mul_comm, Z.div_mul by lia. lia.
  - rewrite list_lookup_insert_ne by done.
    destruct (Qeq_bool _ _) eqn:Hstep; rewrite !list_lookup_fmap;
      (destruct (seqZ 0 num !! i) as [z|]; [|done]);
      cbv [fmap option_fmap option_map]; cbv beta; f_equal.
    + apply inject_Z_div_nonzero in Hstep; [|lia]. rewrite Hstep.
      rewrite Qfloor_zero_step by lia. rewrite Z.mul_0_r, Z.div_0_l by lia. lia.
    + apply Qfloor_affine. lia.
Qed.

Lemma div_steps_lt (d m i j : Z) :
  0 < m <= d -> i < j -> (i * d) / m < (j * d) / m.
Proof.
  intros Hm Hij.
  apply Z.lt_le_trans with ((i * d + 1 * m) / m).
  - rewrite Z.div_add by lia. lia.
  - apply Z.div_le_mono; [lia|]. nia.
Qed.

Lemma div_steps_range (d m i : Z) :
  0 < m <= d -> 0 <= i <= m -> 0 <= (i * d) / m <= d.
Proof.
  intros Hm Hi. split.
  - apply Z.div_pos; nia.
  - replace d with ((d * m) / m) at 2 by (apply Z.div_mul; lia).
    apply Z.div_le_mono; [lia|]. nia.
Qed.

(** With at least as many positions as samples the samples ascend
    strictly from [0] to [stop]. *)
Lemma linspace_int_sorted (stop num : Z) :
  1 <= num <= stop + 1 ->
  exists l, linspace_int 0 stop num = Ok l /\
    length l = Z.to_nat num /\
    StronglySorted Z.lt l /\
    Forall (fun x => 0 <= x <= stop) l.
Proof.
  intros Hnum. destruct (decide (num = 1)) as [->|Hne].
  - exists [0]. rewrite linspace_int_1. repeat split.
    + repeat constructor.
    + repeat constructor; lia.
  - eexists. rewrite linspace_int_ge_2 by lia. split; [done|].
    unfold arange. rewrite length_fmap, length_seqZ. split; [done|]. split.
    + eapply StronglySorted_fmap; [|apply StronglySorted_seqZ].
      intros x y Hxy. simpl. rewrite Z.sub_0_r.
      pose proof (div_steps_lt stop (num - 1) x y). lia.
    + apply Forall_fmap, Forall_forall. intros x Hx.
      apply elem_of_seqZ in Hx. simpl. rewrite Z.sub_0_r.
      pose proof (div_steps_range stop (num - 1) x). lia.
Qed.

End Linspace.




(** The stated index sets are not the ones computed: 5 is a training
    index and 8 is the evaluation index. *)
Lemma split_example_not_as_stated : ~ stated_split_example.
Proof.
  intros (i_train & i_eval & Heq & _ & _ & Hev).
  vm_compute in Heq. injection Heq as <- <-.
  specialize (Hev 8). destruct Hev as [Hev _].
  assert (8 ∈ [5]) as H by (apply Hev, list_elem_of_singleton; done).
  apply list_elem_of_singleton in H. discriminate.
Qed.

(** C7, amended.  With 10 valid frames and the fraction 9/10 there are 9
    training images; the train indices are [0,1,2,3,4,5,6,7,9] and the
    eval index is [8].  On the scene with the frames 0..9 the parser keeps
    exactly the image files of these indices. *)
Theorem split_example_ten_frames :
  math_ceil (fmul (Fin (inject_Z 10)) (Fin (9 # 10))) = Ok 9 /\
  train_eval_indices 10 (Fin (9 # 10)) = Ok ([0; 1; 2; 3; 4; 5; 6; 7; 9], [8]) /\
  (exists out,
     Samples.parse Samples.config (Samples.scene 10 Samples.walk Samples.no_points)
       "train" = Ok out /\
     image_filenames out
     = Samples.frame_file "color" ".jpg" <$> [0; 1; 2; 3; 4; 5; 6; 7; 9]%nat) /\
  (exists out,
     Samples.parse Samples.config (Samples.scene 10 Samples.walk Samples.no_points)
       "val" = Ok out /\
     image_filenames out = Samples.frame_file "color" ".jpg" <$> [8%nat]).
Proof.
  split; [reflexivity|]. split; [reflexivity|].
  split; eexists; (split; [vm_compute; reflexivity|reflexivity]).
Qed.

(** ** The frame loop *)

Lemma fa_app_no_frames (a : frame_arrays) : fa_app a no_frames = a.
Proof. destruct a. unfold fa_app. simpl. by rewrite !app_nil_r. Qed.

Lemma fa_app_append_frame (a b : frame_arrays) (img depth : path) (K pose : matrix) :
  fa_app (append_frame a img depth K pose) b
  = fa_app a (fa_app (append_frame no_frames img depth K pose) b).
Proof. unfold fa_app, append_frame. simpl. by rewrite <- !app_assoc. Qed.

(** The loop with its four accumulators against the one-pass reading. *)
Lemma frame_loop_acc (w : World) (K : matrix) (files : list (path * path * path))
    (acc : frame_arrays) :
  frame_loop w K files acc
  = let* ps := res_mapM (read_pose w) (snd <$> files) in
    Ok (fa_app acc (frames_of K (kept_frames files ps))).
Proof.
  revert acc. induction files as [|[[img depth] pose_file] rest IH]; intros acc.
  - simpl. by rewrite fa_app_no_frames.
  - change (snd <$> ((img, depth, pose_file) :: rest))
      with (pose_file :: (snd <$> rest)).
    cbn [frame_loop res_mapM].
    destruct (read_pose w pose_file) as [pose|e]; cbn [res_bind]; [|done].
    rewrite !IH.
    destruct (res_mapM (read_pose w) (snd <$> rest)) as [ps|e]; cbn [res_bind];
      [|by destruct (any_isinf pose)].
    unfold kept_frames. cbn [zip zip_with]. rewrite filter_cons. cbn [snd].
    destruct (any_isinf pose) eqn:Hinf.
    + by rewrite decide_False by done.
    + rewrite decide_True by done. by rewrite fa_app_append_frame.
Qed.

Lemma res_mapM_length {A B} (f : A -> res B) (l : list A) (bs : list B) :
  res_mapM f l = Ok bs -> length bs = length l.
Proof.
  revert bs. induction l as [|a l IH]; intros bs; simpl.
  - by intros [= <-].
  - destruct (f a); simpl; [|done]. destruct (res_mapM f l); simpl; [|done].
    intros [= <-]. simpl. f_equal. by apply IH.
Qed.

Lemma kept_frames_count (files : list (path * path * path)) (ps : list matrix) :
  length ps = length files ->
  (length (kept_frames files ps)
   + length (filter (fun p => any_isinf p = true) ps))%nat = length files.
Proof.
  revert ps. induction files as [|x files IH]; intros [|p ps]; simpl; try done.
  intros [= Hlen]. specialize (IH _ Hlen). unfold kept_frames in *. simpl.
  rewrite !filter_cons. simpl. destruct (any_isinf p); simpl; lia.
Qed.

(** A NaN passes the filter: frame 1 of the sample is kept with a pose
    that is not finite. *)
Lemma nan_pose_is_kept : ~ stated_finite_filter.
Proof.
  intros H.
  specialize (H (Samples.scene 3 Samples.nan_walk Samples.no_points) Samples.K0
                (Samples.files 3) _ eq_refl).
  vm_compute in H.
  apply Forall_cons in H as [_ H]. apply Forall_cons in H as [H _].
  apply Forall_cons in H as [H _]. apply Forall_cons in H as [_ H].
  apply Forall_cons in H as [_ H]. apply Forall_cons in H as [_ H].
  apply Forall_cons in H as [H _]. discriminate.
Qed.

(** A pose file of infinities removes its frame from all four arrays. *)
Lemma inf_pose_is_dropped :
  exists frames,
    frame_loop (Samples.scene 3 Samples.inf_walk Samples.no_points) Samples.K0
      (Samples.files 3) no_frames = Ok frames /\
    fa_image_filenames frames = Samples.frame_file "color" ".jpg" <$> [0; 2]%nat /\
    fa_depth_filenames frames = Samples.frame_file "depth" ".png" <$> [0; 2]%nat /\
    fa_intrinsics frames = [Samples.K0; Samples.K0] /\
    length (fa_poses frames) = 2%nat.
Proof. eexists. split; [vm_compute; reflexivity|]. by repeat split. Qed.
(** C3, amended.  When every pose file parses, the loop returns, and its
    four arrays are the four projections of one list: the frames, in file
    order, whose flipped single-precision pose holds no infinity (a NaN
    does not exclude a frame).  The arrays have one length, every
    intrinsics entry is [K], and the kept frames and the poses with an
    infinity add up to the number of frames read, so one pose with an
    infinity leaves [N - 1] frames. *)
Theorem frame_loop_drops_infinite_poses (w : World) (K : matrix)
    (files : list (path * path * path)) (ps : list matrix) :
  res_mapM (read_pose w) (snd <$> files) = Ok ps ->
  let kept := kept_frames files ps in
  frame_loop w K files no_frames = Ok (frames_of K kept) /\
  Forall (fun x => any_isinf x.2 = false) kept /\
  (forall x, x ∈ zip files ps -> any_isinf x.2 = false -> x ∈ kept) /\
  length (fa_image_filenames (frames_of K kept)) = length kept /\
  length (fa_depth_filenames (frames_of K kept)) = length kept /\
  length (fa_intrinsics (frames_of K kept)) = length kept /\
  length (fa_poses (frames_of K kept)) = length kept /\
  fa_intrinsics (frames_of K kept) = replicate (length kept) K /\
  (length kept + length (filter (fun p => any_isinf p = true) ps))%nat
  = length files.
Proof.
  intros Hps kept. subst kept. repeat apply conj.
  - rewrite frame_loop_acc, Hps. done.
  - apply Forall_forall. intros x Hx.
    by apply list_elem_of_filter in Hx as [? _].
  - intros x Hx Hinf. by apply list_elem_of_filter.
  - simpl. by rewrite length_fmap.
  - simpl. by rewrite length_fmap.
  - simpl. by rewrite length_fmap.
  - simpl. by rewrite length_fmap.
  - simpl. apply const_fmap. done.
  - apply kept_frames_count. apply res_mapM_length in Hps.
    by rewrite Hps, length_fmap.
Qed.

Lemma frame_loop_drops_infinite_poses_witness :
  let w := Samples.scene 3 Samples.inf_walk Samples.no_points in
  let files := Samples.files 3 in
  exists ps,
    res_mapM (read_pose w) (snd <$> files) = Ok ps /\
    frame_loop w Samples.K0 files no_frames
    = Ok (frames_of Samples.K0 (kept_frames files ps)) /\
    length (kept_frames files ps) = 2%nat.
Proof.
  intros w files. eexists. split; [vm_compute; reflexivity|].
  split; [|vm_compute; reflexivity].
  apply (frame_loop_drops_infinite_poses w Samples.K0 files).
  vm_compute. reflexivity.
Defined.

(** ** Matrices *)

Section Matrices.

Lemma omap_cons_Some {A B} (f : A -> option B) (x : A) (l : list A) (y : B) :
  f x = Some y -> omap f (x :: l) = y :: omap f l.
Proof. intros H. simpl. by rewrite H. Qed.

Lemma column_lookup (j : nat) (m : matrix) (i : nat) :
  Forall (fun row : list fval => (j < length row)%nat) m ->
  column j m !! i = (row ← m !! i; row !! j).
Proof.
  intros Hm. revert i. induction Hm as [|row m Hrow Hm IH]; intros i; [done|].
  destruct (lookup_lt_is_Some_2 row j Hrow) as [v Hv].
  unfold column in *. rewrite (omap_cons_Some _ _ _ _ Hv).
  destruct i as [|i]; simpl; [done|apply IH].
Qed.

Lemma column_length (j : nat) (m : matrix) :
  Forall (fun row : list fval => (j < length row)%nat) m ->
  length (column j m) = length m.
Proof.
  induction 1 as [|row m Hrow Hm IH]; [done|].
  destruct (lookup_lt_is_Some_2 row j Hrow) as [v Hv].
  unfold column in *. rewrite (omap_cons_Some _ _ _ _ Hv). simpl. by f_equal.
Qed.

Lemma ncols_rectangular (m : matrix) (c : nat) :
  m <> [] -> Forall (fun row : list fval => length row = c) m -> ncols m = c.
Proof. intros Hne Hm. destruct m; [done|]. by apply Forall_cons in Hm as [? _]. Qed.

Lemma transpose_lookup (m : matrix) (c j : nat) :
  m <> [] -> Forall (fun row : list fval => length row = c) m -> (j < c)%nat ->
  transpose m !! j = Some (column j m).
Proof.
  intros Hne Hm Hj. unfold transpose. rewrite (ncols_rectangular m c) by done.
  by rewrite list_lookup_fmap, lookup_seq_lt.
Qed.

Lemma transpose_length (m : matrix) (c : nat) :
  m <> [] -> Forall (fun row : list fval => length row = c) m ->
  length (transpose m) = c.
Proof.
  intros Hne Hm. unfold transpose. rewrite (ncols_rectangular m c) by done.
  by rewrite length_fmap, length_seq.
Qed.

Lemma transpose_rows (m : matrix) (c : nat) :
  m <> [] -> Forall (fun row : list fval => length row = c) m ->
  Forall (fun row : list fval => length row = length m) (transpose m).
Proof.
  intros Hne Hm. unfold transpose. rewrite (ncols_rectangular m c) by done.
  apply Forall_fmap, Forall_forall. intros j Hj. apply elem_of_seq in Hj. simpl.
  apply column_length. eapply Forall_impl; [exact Hm|]. simpl. intros; lia.
Qed.

(** On a rectangular matrix with at least one row and one column,
    transposing twice gives the matrix back. *)
Lemma transpose_involutive (m : matrix) (c : nat) :
  m <> [] -> (0 < c)%nat ->
  Forall (fun row : list fval => length row = c) m ->
  transpose (transpose m) = m.
Proof.
  intros Hne Hc Hm.
  pose proof (transpose_rows m c Hne Hm) as Hrows.
  assert (transpose m <> []) as Hne'.
  { intros H0. pose proof (transpose_length m c Hne Hm) as Hl.
    rewrite H0 in Hl. simpl in Hl. lia. }
  apply list_eq. intros i.
  destruct (decide (i < length m)%nat) as [Hi|Hi].
  - rewrite (transpose_lookup (transpose m) (length m) i) by done.
    destruct (lookup_lt_is_Some_2 m i Hi) as [row Hrow]. rewrite Hrow. f_equal.
    assert (length row = c) as Hlen.
    { rewrite Forall_forall in Hm. apply Hm. by eapply list_elem_of_lookup_2. }
    apply list_eq. intros j. rewrite column_lookup.
    2:{ eapply Forall_impl; [exact Hrows|]. simpl. intros; lia. }
    destruct (decide (j < c)%nat) as [Hj|Hj].
    + rewrite (transpose_lookup m c j) by done. simpl.
      rewrite column_lookup.
      2:{ eapply Forall_impl; [exact Hm|]. simpl. intros; lia. }
      by rewrite Hrow.
    + rewrite (lookup_ge_None_2 (transpose m)), (lookup_ge_None_2 row); [done|lia|].
      rewrite (transpose_length m c) by done. lia.
  - rewrite (lookup_ge_None_2 m) by lia. apply lookup_ge_None_2.
    unfold transpose at 1. rewrite length_fmap, length_seq.
    rewrite (ncols_rectangular (transpose m) (length m)) by done. lia.
Qed.

(** [a @ T.T]: row [i] of the product holds the dot products of row [i]
    of [a] with the rows of [T]. *)
Lemma matmul_transpose (a T : matrix) (c : nat) :
  T <> [] -> (0 < c)%nat ->
  Forall (fun row : list fval => length row = c) T ->
  Forall (fun row : list fval => length row = c) a ->
  matmul a (transpose T) = Ok ((fun row => dot row <$> T) <$> a).
Proof.
  intros Hne Hc HT Ha. unfold matmul.
  rewrite (transpose_length T c) by done. rewrite decide_True by done.
  f_equal. apply list_fmap_ext. intros _ row _.
  rewrite <- (transpose_involutive T c) at 2 by done.
  unfold transpose at 3. by rewrite <- list_fmap_compose.
Qed.

Lemma dot_homogeneous (x y z a b c d : fval) :
  dot ([x; y; z] ++ [Fin 1]) [a; b; c; d]
  = fadd (fmul x a) (fadd (fmul y b) (fadd (fmul z c) d)).
Proof. unfold dot. cbn [app zip_with foldr]. by rewrite fadd_0_r, fmul_1_l. Qed.

End Matrices.

(** ** The parser *)

Section ParserProperties.

(** The centring helper of [camera_utils], whatever it computes. *)
Variable aoc : string -> string -> list matrix -> res (list matrix * matrix).

Lemma select_split_train (i_train i_eval : list Z) :
  select_split "train" i_train i_eval = Ok i_train.
Proof. reflexivity. Qed.

Lemma select_split_eval (split : string) (i_train i_eval : list Z) :
  split = "val" \/ split = "test" -> select_split split i_train i_eval = Ok i_eval.
Proof. by intros [-> | ->]. Qed.

Lemma select_split_unknown (split : string) (i_train i_eval : list Z) :
  ~ known_split split ->
  select_split split i_train i_eval
  = Raise (ValueError ("Unknown dataparser split " +:+ split)).
Proof.
  intros Hs. unfold select_split, known_split in *.
  rewrite decide_False by tauto.
  rewrite decide_False; [done|].
  rewrite !elem_of_cons, elem_of_nil. tauto.
Qed.

(** What a returned bundle says about the run that produced it. *)
Lemma parse_returns (config : ScanNetDataParserConfig) (w : World)
    (split : string) (out : DataparserOutputs) :
  _generate_dataparser_outputs aoc config w split = Ok out ->
  exists ld indices c scale poses,
    load_frames config w = Ok ld /\
    split_indices config (ld_frames ld) split = Ok indices /\
    center_poses aoc config (ld_frames ld) = Ok c /\
    pose_scale_factor config (ct_poses c) = Ok scale /\
    scale_translations scale (ct_poses c) = Ok poses /\
    assemble config w ld indices (ct_intrinsics c) poses (ct_transform c) scale
    = Ok out.
Proof.
  unfold _generate_dataparser_outputs. intros H. inv_bind H.
  eauto 12.
Qed.

Lemma assemble_returns (config : ScanNetDataParserConfig) (w : World)
    (ld : loaded) (indices : list Z) (intrinsics poses : list matrix)
    (T : matrix) (scale : fval) (out : DataparserOutputs) :
  assemble config w ld indices intrinsics poses T scale = Ok out ->
  dataparser_scale out = scale /\
  dataparser_transform out = T /\
  gather (fa_image_filenames (ld_frames ld)) indices = Ok (image_filenames out) /\
  exists selected,
    gather poses indices = Ok selected /\
    camera_to_worlds (cameras out)
    = (fun m : matrix => take 4 <$> take 3 m) <$> selected.
Proof.
  unfold assemble. intros H. inv_bind H. injection H as <-. simpl.
  repeat split; eauto.
Qed.

Lemma py_index_fmap {A B} (f : A -> B) (l : list A) (i : Z) :
  py_index (f <$> l) i = let* x := py_index l i in Ok (f x).
Proof.
  unfold py_index. rewrite length_fmap, list_lookup_fmap.
  destruct (_ && _); [|done]. by destruct (l !! _).
Qed.

Lemma gather_fmap {A B} (f : A -> B) (l : list A) (indices : list Z) :
  gather (f <$> l) indices = let* xs := gather l indices in Ok (f <$> xs).
Proof.
  unfold gather. induction indices as [|i indices IH]; [done|].
  cbn [res_mapM]. rewrite py_index_fmap, IH.
  destruct (py_index l i); [|done]. cbn [res_bind].
  by destruct (res_mapM (py_index l) indices).
Qed.

Lemma entry_camera_block (m : matrix) (r c : nat) :
  (r < 3)%nat -> (c < 4)%nat -> entry (take 4 <$> take 3 m) r c = entry m r c.
Proof.
  intros Hr Hc. unfold entry.
  rewrite list_lookup_fmap, lookup_take_lt by done.
  destruct (m !! r) as [row|]; [|done]. simpl. by rewrite lookup_take_lt.
Qed.



(** Whatever the scene, a split that is not known never yields a bundle. *)
Lemma unknown_split_never_returns (config : ScanNetDataParserConfig)
    (w : World) (split : string) (out : DataparserOutputs) :
  ~ known_split split -> _generate_dataparser_outputs aoc config w split <> Ok out.
Proof.
  intros Hs Hout.
  apply parse_returns in Hout as (ld & indices & _ & _ & _ & _ & Hidx & _).
  unfold split_indices in Hidx. inv_bind Hidx.
  by rewrite select_split_unknown in Hidx.
Qed.

(** C10.  In a run that reaches the scale computation with auto-scaling
    enabled, a maximum absolute translation component of exactly zero makes
    the parser raise [ZeroDivisionError]: no bundle is returned. *)
Theorem zero_translation_raises (config : ScanNetDataParserConfig) (w : World)
    (split : string) (ld : loaded) (indices : list Z) (c : centered) (m : fval) :
  load_frames config w = Ok ld ->
  split_indices config (ld_frames ld) split = Ok indices ->
  center_poses aoc config (ld_frames ld) = Ok c ->
  auto_scale_poses config = true ->
  max_abs_translation (ct_poses c) = Ok m ->
  is_zero m = true ->
  _generate_dataparser_outputs aoc config w split = Raise ZeroDivisionError.
Proof.
  intros Hld Hidx Hc Hauto Hmax Hzero.
  unfold _generate_dataparser_outputs.
  rewrite Hld. cbn [res_bind]. rewrite Hidx. cbn [res_bind].
  rewrite Hc. cbn [res_bind].
  unfold pose_scale_factor. rewrite Hauto.
  unfold max_abs_translation in Hmax.
  destruct (column_slice 3 3 (ct_poses c)) as [t|e]; [|done].
  cbn [res_bind] in *. rewrite Hmax. cbn [res_bind].
  unfold py_truediv. by rewrite Hzero.
Qed.



(** C1.  Two runs on one scene and one configuration that both return a
    bundle, whatever their splits and so for "train" against "val" or
    "test", return the same transform and the same scale: both are
    computed from the poses of all loaded frames, by [center_poses] and
    [pose_scale_factor], neither of which takes the split or its indices. *)
Theorem transform_and_scale_split_independent
    (config : ScanNetDataParserConfig) (w : World) (split1 split2 : string)
    (out1 out2 : DataparserOutputs) :
  _generate_dataparser_outputs aoc config w split1 = Ok out1 ->
  _generate_dataparser_outputs aoc config w split2 = Ok out2 ->
  dataparser_transform out1 = dataparser_transform out2 /\
  dataparser_scale out1 = dataparser_scale out2 /\
  exists ld c,
    load_frames config w = Ok ld /\
    center_poses aoc config (ld_frames ld) = Ok c /\
    dataparser_transform out1 = ct_transform c /\
    pose_scale_factor config (ct_poses c) = Ok (dataparser_scale out1).
Proof.
  intros H1 H2.
  apply parse_returns in H1
    as (ld & i1 & c & s & p & Hld & _ & Hc & Hs & _ & Ha1).
  apply parse_returns in H2
    as (ld' & i2 & c' & s' & p' & Hld' & _ & Hc' & Hs' & _ & Ha2).
  rewrite Hld in Hld'. injection Hld' as <-.
  rewrite Hc in Hc'. injection Hc' as <-.
  rewrite Hs in Hs'. injection Hs' as <-.
  apply assemble_returns in Ha1 as (-> & -> & _).
  apply assemble_returns in Ha2 as (-> & -> & _).
  eauto 10.
Qed.

Lemma homogeneous_points (pts : list (fval * fval * fval)) :
  let points3D := astype_float32 (row_of <$> pts) in
  zip_with app points3D
    ((fun p : list fval => (fun _ => Fin 1) <$> take 1 p) <$> points3D)
  = (fun p => p ++ [Fin 1]) <$> (float32_point <$> pts).
Proof.
  induction pts as [|[[x y] z] pts IH]; [done|].
  unfold astype_float32, float32_point in *.
  rewrite !fmap_cons. cbn [zip_with]. cbv zeta in IH. by rewrite IH.
Qed.

(** What the loader puts under ["points3D_xyz"]. *)
Lemma load_3D_points_xyz (w : World) (ply : path) (T : matrix) (s : fval)
    (color : bool) :
  points (read_point_cloud w ply) <> [] ->
  T <> [] ->
  Forall (fun row : list fval => length row = 4%nat) T ->
  exists d,
    _load_3D_points w ply T s color = Ok (Some d) /\
    d !! "points3D_xyz"
    = Some (MTensor (transformed_point T s
                       <$> (float32_point <$> points (read_point_cloud w ply)))).
Proof.
  intros Hpts HT Hrows. unfold _load_3D_points.
  rewrite decide_False by (by destruct (points _)).
  rewrite homogeneous_points.
  rewrite (matmul_transpose _ T 4); [|done|lia|done|].
  2:{ apply Forall_fmap, Forall_fmap, Forall_forall.
      by intros [[x y] z] _. }
  cbn [res_bind]. eexists. split; [reflexivity|].
  assert (forall l : list (list fval),
            (fun p : list fval => (fun v => fmul v s) <$> p)
              <$> ((fun row => dot row <$> T) <$> ((fun p => p ++ [Fin 1]) <$> l))
            = transformed_point T s <$> l) as Heq.
  { intros l. rewrite <- !list_fmap_compose. apply list_fmap_ext.
    intros _ p _. simpl. unfold transformed_point.
    by rewrite <- list_fmap_compose. }
  rewrite Heq. destruct color.
  - rewrite lookup_insert_ne by done. by rewrite lookup_singleton_eq.
  - by rewrite lookup_singleton_eq.
Qed.




End ParserProperties.

(** ** The properties on the sample scenes *)


(** A single frame centred on itself has all its translations at zero. *)
Lemma zero_translation_raises_witness :
  let w := Samples.scene 1 Samples.walk Samples.no_points in
  Samples.parse Samples.config w "train" = Raise ZeroDivisionError.
Proof.
  intros w.
  refine (zero_translation_raises _ Samples.config w "train" _ _ _ _ _ _ _ _ _ _).
  - vm_compute. reflexivity.
  - vm_compute. reflexivity.
  - vm_compute. reflexivity.
  - reflexivity.
  - vm_compute. reflexivity.
  - vm_compute. reflexivity.
Defined.


Lemma transform_and_scale_split_independent_witness :
  let w := Samples.scene 10 Samples.walk Samples.three_points in
  exists out1 out2,
    Samples.parse Samples.config w "train" = Ok out1 /\
    Samples.parse Samples.config w "val" = Ok out2 /\
    dataparser_transform out1 = dataparser_transform out2 /\
    dataparser_scale out1 = dataparser_scale out2.
Proof.
  intros w. eexists _, _.
  split; [vm_compute; reflexivity|]. split; [vm_compute; reflexivity|].
  refine (let H := transform_and_scale_split_independent
                     (auto_orient_and_center_poses_model Samples.no_focus)
                     Samples.config w "train" "val" _ _ _ _ in
          conj (proj1 H) (proj1 (proj2 H))).
  - vm_compute. reflexivity.
  - vm_compute. reflexivity.
Defined.


(** The first sample point, (1, 2, 3), under the transform and the scale of
    the ten-frame scene: the centre (9/2, 9, 0) is subtracted and the
    result is divided by 9. *)
Lemma sample_point_transformed :
  transformed_point
    [ [Fin 1; Fin 0; Fin 0; Fin (-9 # 2)]; [Fin 0; Fin 1; Fin 0; Fin (-9)];
      [Fin 0; Fin 0; Fin 1; Fin 0]; [Fin 0; Fin 0; Fin 0; Fin 1] ]
    (Fin (1 # 9)) [Fin 1; Fin 2; Fin 3]
  = [Fin (-7 # 18); Fin (-7 # 9); Fin (3 # 9); Fin (1 # 9)].
Proof. reflexivity. Qed.

(** * Further properties of the parser *)

(** ** The split for every fraction *)

Section SplitEdges.

Lemma linspace_int_0 (start stop : Z) : linspace_int start stop 0 = Ok [].
Proof. reflexivity. Qed.

Lemma linspace_int_negative (start stop num : Z) :
  num < 0 ->
  linspace_int start stop num
  = Raise (ValueError "Number of samples must be non-negative").
Proof. intros H. unfold linspace_int. by rewrite (proj2 (Z.ltb_lt num 0)). Qed.


Lemma linspace_int_Ok_nonneg (start stop num : Z) (l : list Z) :
  linspace_int start stop num = Ok l -> 0 <= num.
Proof.
  intros H. destruct (Z.lt_ge_cases num 0) as [Hneg|]; [|done].
  by rewrite linspace_int_negative in H.
Qed.

Lemma linspace_int_length (start stop num : Z) (l : list Z) :
  linspace_int start stop num = Ok l -> length l = Z.to_nat num.
Proof.
  unfold linspace_int. destruct (num <? 0); [done|]. intros [= <-].
  rewrite length_fmap.
  assert (forall (y : list Q) (b : bool) (i : nat) (q : Q),
            length (if b then <[i:=q]> y else y) = length y) as Hins
    by (intros y [] i q; [apply length_insert|done]).
  rewrite Hins, length_fmap.
  destruct (0 <? num - 1); [destruct (Qeq_bool _ _)|];
    rewrite !length_fmap; unfold arange; by rewrite length_seqZ.
Qed.

Lemma setdiff1d_arange_length (N : Z) (l : list Z) :
  (length (setdiff1d (arange N) l) <= Z.to_nat N)%nat.
Proof.
  unfold setdiff1d, arange.
  rewrite (np_unique_sorted (seqZ 0 N)) by apply StronglySorted_seqZ.
  etrans; [apply length_filter|]. by rewrite length_seqZ.
Qed.


Lemma filter_not_in_self (l : list Z) : filter (fun x => x ∉ l) l = [].
Proof.
  assert (forall k, (forall x, x ∈ k -> x ∈ l) -> filter (fun x => x ∉ l) k = [])
    as H.
  { induction k as [|x k IH]; intros Hk; [done|].
    rewrite filter_cons_False by (intros Hx; apply Hx, Hk; left).
    apply IH. intros y Hy. apply Hk. by right. }
  by apply H.
Qed.

End SplitEdges.

(** What a passed assertion says about the pieces of lines 110-118. *)
Lemma train_eval_indices_Ok_inv (N : Z) (f : fval) (i_train i_eval : list Z) :
  train_eval_indices N f = Ok (i_train, i_eval) ->
  exists k,
    math_ceil (fmul (Fin (inject_Z N)) f) = Ok k /\
    0 <= k <= N /\
    length i_train = Z.to_nat k /\
    StronglySorted Z.lt i_train /\
    Forall (fun x => 0 <= x <= N - 1) i_train /\
    i_eval = filter (fun x => x ∉ i_train) (arange N) /\
    Z.of_nat (length i_eval) = N - k.
Proof.
  unfold train_eval_indices. intros H. inv_bind H.
  match goal with E : math_ceil _ = Ok ?n |- _ => rename n into k; rename E into Hk end.
  match goal with E : linspace_int _ _ _ = Ok ?x |- _ => rename x into l; rename E into Hl end.
  destruct (Z.eqb_spec (Z.of_nat (length (setdiff1d (arange N) l))) (N - k))
    as [Hlen|]; [|done].
  injection H as <- <-.
  pose proof (linspace_int_Ok_nonneg _ _ _ _ Hl) as Hk0.
  pose proof (setdiff1d_arange_length N l) as Hle.
  assert (0 <= k <= N) as Hrange by lia.
  assert (StronglySorted Z.lt l /\ length l = Z.to_nat k /\
          Forall (fun x => 0 <= x <= N - 1) l) as (Hsort & Hlenl & Hin).
  { destruct (decide (k = 0)) as [->|Hne].
    - rewrite linspace_int_0 in Hl. injection Hl as <-.
      repeat split; constructor.
    - destruct (linspace_int_sorted (N - 1) k) as (l' & Hl' & ? & ? & ?); [lia|].
      rewrite Hl in Hl'. by injection Hl' as <-. }
  assert (setdiff1d (arange N) l = filter (fun x => x ∉ l) (arange N)) as Hdiff.
  { unfold setdiff1d, arange.
    by rewrite !np_unique_sorted by (done || apply StronglySorted_seqZ). }
  exists k. rewrite <- Hdiff. repeat apply conj; try done; lia.
Qed.

(** X1.  Whenever lines 110-118 get past the assertion, for any fraction, the
    number of training images lies in [0 .. N], the train indices are that
    many strictly ascending values of [0 .. N-1], and the eval indices are
    exactly the remaining values of [0 .. N-1] in ascending order. *)
Theorem train_eval_indices_returns_partition (N : Z) (f : fval)
    (i_train i_eval : list Z) :
  train_eval_indices N f = Ok (i_train, i_eval) ->
  exists k,
    math_ceil (fmul (Fin (inject_Z N)) f) = Ok k /\
    0 <= k <= N /\
    Z.of_nat (length i_train) = k /\
    StronglySorted Z.lt i_train /\
    (forall x, x ∈ i_train -> 0 <= x < N) /\
    i_eval = filter (fun x => x ∉ i_train) (arange N) /\
    StronglySorted Z.lt i_eval /\
    (forall x, x ∈ i_eval <-> 0 <= x < N /\ x ∉ i_train) /\
    Z.of_nat (length i_train) + Z.of_nat (length i_eval) = N.
Proof.
  intros H.
  apply train_eval_indices_Ok_inv in H
    as (k & Hk & Hrange & Hlen & Hsort & Hin & Hev & Hlenev).
  rewrite Forall_forall in Hin.
  exists k. repeat apply conj; try done; try lia.
  - intros x Hx. specialize (Hin _ Hx). lia.
  - rewrite Hev. apply StronglySorted_filter, StronglySorted_seqZ.
  - intros x. rewrite Hev, list_elem_of_filter. unfold arange.
    rewrite elem_of_seqZ. split; intros [? ?]; split; (done || lia).
Qed.

Lemma train_eval_indices_returns_partition_witness :
  exists k,
    math_ceil (fmul (Fin (inject_Z 5)) (Fin (1 # 2))) = Ok k /\
    0 <= k <= 5 /\
    Z.of_nat (length [0; 2; 4]) = k /\
    StronglySorted Z.lt [0; 2; 4] /\
    (forall x, x ∈ [0; 2; 4] -> 0 <= x < 5) /\
    [1; 3] = filter (fun x => x ∉ [0; 2; 4]) (arange 5) /\
    StronglySorted Z.lt [1; 3] /\
    (forall x, x ∈ [1; 3] <-> 0 <= x < 5 /\ x ∉ [0; 2; 4]) /\
    Z.of_nat (length [0; 2; 4]) + Z.of_nat (length [1; 3]) = 5.
Proof.
  apply (train_eval_indices_returns_partition 5 (Fin (1 # 2)) [0; 2; 4] [1; 3]).
  reflexivity.
Defined.







(** X5.  The fraction 1 puts every index into training and leaves evaluation
    empty. *)
Theorem unit_fraction_all_train (N : Z) :
  1 <= N -> train_eval_indices N (Fin 1) = Ok (arange N, []).
Proof.
  intros HN. unfold train_eval_indices. simpl.
  assert (Qceiling (inject_Z N * 1) = N) as ->.
  { rewrite <- (Qceiling_Z N) at 2. apply Qceiling_comp. apply Qmult_1_r. }
  assert (linspace_int 0 (N - 1) N = Ok (arange N)) as ->.
  { destruct (decide (N = 1)) as [->|Hne]; [apply linspace_int_1|].
    rewrite linspace_int_ge_2 by lia. f_equal.
    rewrite <- (list_fmap_id (arange N)) at 2. apply list_fmap_ext.
    intros _ x _. simpl. rewrite Z.sub_0_r, Z.div_mul by lia. done. }
  simpl. unfold setdiff1d.
  rewrite np_unique_sorted by apply StronglySorted_seqZ.
  rewrite filter_not_in_self. simpl. by rewrite Z.sub_diag.
Qed.

Lemma unit_fraction_all_train_witness :
  train_eval_indices 4 (Fin 1) = Ok ([0; 1; 2; 3], []).
Proof. apply (unit_fraction_all_train 4). lia. Defined.

(** X6.  With two training images or more, the first and the last valid frame
    are training images: the train indices start at 0 and end at [N - 1]
    (the comment of line 116). *)
Theorem train_indices_end_points (N : Z) (f : fval) (i_train i_eval : list Z) :
  train_eval_indices N f = Ok (i_train, i_eval) ->
  (2 <= length i_train)%nat ->
  head i_train = Some 0 /\ last i_train = Some (N - 1).
Proof.
  intros H Hlen.
  unfold train_eval_indices in H. inv_bind H.
  match goal with E : math_ceil _ = Ok ?n |- _ => rename n into k end.
  match goal with E : linspace_int _ _ _ = Ok ?x |- _ => rename E into Hl end.
  destruct (Z.eqb _ _); [|done]. injection H as <- <-.
  pose proof (linspace_int_length _ _ _ _ Hl) as Hlenk.
  assert (2 <= k) as Hk2 by lia.
  rewrite linspace_int_ge_2 in Hl by lia. injection Hl as <-.
  unfold arange. split.
  - rewrite head_lookup, list_lookup_fmap, lookup_seqZ_lt by lia. simpl.
    by rewrite Z.div_0_l by lia.
  - rewrite fmap_last, last_lookup, length_seqZ, lookup_seqZ_lt by lia. simpl.
    f_equal. rewrite Z.sub_0_r.
    replace (0 + Z.of_nat (Nat.pred (Z.to_nat k))) with (k - 1) by lia.
    rewrite Z.mul_comm, Z.div_mul by lia. lia.
Qed.

Lemma train_indices_end_points_witness :
  head [0; 1; 2; 3; 4; 5; 6; 7; 9] = Some 0 /\
  last [0; 1; 2; 3; 4; 5; 6; 7; 9] = Some (10 - 1).
Proof.
  apply (train_indices_end_points 10 (Fin (9 # 10)) _ [8]);
    [reflexivity | simpl; lia].
Defined.

(** ** Reading one pose *)

Section PoseReading.

Lemma Qopp_involutive_eq (q : Q) : (- - q)%Q = q.
Proof. destruct q as [n d]. unfold Qopp. simpl. f_equal. lia. Qed.

Lemma fneg_involutive (v : fval) : fneg (fneg v) = v.
Proof. destruct v; simpl; try done. by rewrite Qopp_involutive_eq. Qed.

Lemma isinf_fneg (v : fval) : isinf (fneg v) = isinf v.
Proof. by destruct v. Qed.

Lemma Qabs_opp_eq (q : Q) : Qabs (- q) = Qabs q.
Proof. destruct q as [n d]. unfold Qabs, Qopp. simpl. f_equal. lia. Qed.

(** Negation and the cast to single precision commute. *)
Lemma to_float32_fneg (v : fval) : to_float32 (fneg v) = fneg (to_float32 v).
Proof.
  destruct v as [q| | |]; try done. cbn [fneg to_float32].
  rewrite Qabs_opp_eq.
  destruct (Qle_bool float32_overflow (Qabs q)) eqn:Hq; [|done].
  destruct q as [[|n|n] d]; [|done..].
  unfold Qle_bool, float32_overflow in Hq. simpl in Hq. discriminate Hq.
Qed.

Lemma infinite_as_float32_flip (v : fval) :
  infinite_as_float32 (fmul v (Fin (-1))) = infinite_as_float32 v.
Proof.
  unfold infinite_as_float32.
  by rewrite fmul_neg1_r, to_float32_fneg, isinf_fneg.
Qed.

Lemma infinite_as_float32_iff (v : fval) :
  infinite_as_float32 v = true <->
  v = PInf \/ v = NInf \/
  exists q, v = Fin q /\ (float32_overflow <= Qabs q)%Q.
Proof.
  unfold infinite_as_float32. destruct v as [q| | |]; simpl.
  - destruct (Qle_bool float32_overflow (Qabs q)) eqn:Hq.
    + apply Qle_bool_iff in Hq. split; [|by destruct (Qsign q <? 0)].
      intros _. right. right. eauto.
    + split; [done|]. intros [|[|(q' & [= <-] & Hle)]]; try done.
      apply Qle_bool_iff in Hle. congruence.
  - tauto.
  - tauto.
  - split; [done|]. intros [|[|(q' & ? & _)]]; done.
Qed.

Lemma existsb_fmap {A B} (f : A -> B) (P : B -> bool) (l : list A) :
  existsb P (f <$> l) = existsb (fun x => P (f x)) l.
Proof.
  induction l as [|x l IH]; [done|]. rewrite fmap_cons. cbn [existsb].
  by rewrite IH.
Qed.

Lemma existsb_alter {A} (P : A -> bool) (f : A -> A) (i : nat) (l : list A) :
  (forall x, P (f x) = P x) -> existsb P (alter f i l) = existsb P l.
Proof.
  intros Hf. revert i. induction l as [|x l IH]; intros [|i]; try done.
  - change (alter f 0%nat (x :: l)) with (f x :: l). cbn [existsb].
    by rewrite Hf.
  - change (alter f (S i) (x :: l)) with (x :: alter f i l). cbn [existsb].
    by rewrite IH.
Qed.

Lemma existsb_imap {A} (Q : A -> bool) (h : nat -> A -> A) (l : list A) :
  (forall i x, Q (h i x) = Q x) -> existsb Q (imap h l) = existsb Q l.
Proof.
  revert h. induction l as [|x l IH]; intros h Hh; [done|].
  rewrite imap_cons. cbn [existsb]. rewrite Hh, IH; [done|]. intros i y. apply Hh.
Qed.

Lemma existsb_concat {A} (P : A -> bool) (ls : list (list A)) :
  existsb P (concat ls) = existsb (existsb P) ls.
Proof.
  induction ls as [|l ls IH]; [done|]. cbn [concat existsb].
  by rewrite existsb_app, IH.
Qed.

Lemma existsb_rows_of (P : fval -> bool) (rows cols : nat) (flat : list fval) :
  length flat = (rows * cols)%nat ->
  existsb (existsb P) (rows_of rows cols flat) = existsb P flat.
Proof.
  revert flat. induction rows as [|rows IH]; intros flat Hlen.
  - by destruct flat.
  - cbn [rows_of existsb]. rewrite IH by (rewrite length_drop; lia).
    rewrite <- existsb_app. by rewrite take_drop.
Qed.

Lemma existsb_ext_eq {A} (P Q : A -> bool) (l : list A) :
  (forall x, P x = Q x) -> existsb P l = existsb Q l.
Proof.
  intros H. induction l as [|x l IH]; [done|]. cbn [existsb]. by rewrite H, IH.
Qed.

Lemma any_isinf_sanitized (m : matrix) :
  any_isinf (astype_float32 (flip_axes m)) = existsb (existsb infinite_as_float32) m.
Proof.
  unfold any_isinf, astype_float32, flip_axes, mul_column.
  rewrite existsb_fmap.
  rewrite (existsb_ext_eq _ (existsb infinite_as_float32))
    by (intros row; exact (existsb_fmap to_float32 isinf row)).
  rewrite !existsb_imap; [done| |];
    intros i row; case_decide; try done;
    apply existsb_alter, infinite_as_float32_flip.
Qed.

Lemma rows_of_lookup (rows cols : nat) (flat : list fval) (r : nat) :
  (r < rows)%nat ->
  rows_of rows cols flat !! r = Some (take cols (drop (r * cols) flat)).
Proof.
  revert flat r. induction rows as [|rows IH]; intros flat r Hr; [lia|].
  destruct r as [|r]; simpl; [done|].
  rewrite IH by lia. by rewrite drop_drop.
Qed.

Lemma rows_of_length (rows cols : nat) (flat : list fval) :
  length (rows_of rows cols flat) = rows.
Proof. revert flat. induction rows as [|rows IH]; intros flat; simpl; auto. Qed.

Lemma rows_of_shape (rows cols : nat) (flat : list fval) :
  length flat = (rows * cols)%nat ->
  Forall (fun row : list fval => length row = cols) (rows_of rows cols flat).
Proof.
  revert flat. induction rows as [|rows IH]; intros flat Hlen; simpl.
  - constructor.
  - constructor.
    + rewrite length_take. lia.
    + apply IH. rewrite length_drop. lia.
Qed.

Lemma mul_column_shape (rows col : nat) (s : fval) (m : matrix) (c : nat) :
  Forall (fun row : list fval => length row = c) m ->
  Forall (fun row : list fval => length row = c) (mul_column rows col s m).
Proof.
  intros Hm. apply Forall_lookup. intros i row Hrow.
  unfold mul_column in Hrow. rewrite list_lookup_imap in Hrow.
  destruct (m !! i) as [row0|] eqn:Hi; [|done]. simpl in Hrow.
  injection Hrow as <-.
  pose proof (Forall_lookup_1 _ _ _ _ Hm Hi) as Hlen. simpl in Hlen.
  case_decide; [by rewrite length_alter|done].
Qed.

Lemma mul_column_length (rows col : nat) (s : fval) (m : matrix) :
  length (mul_column rows col s m) = length m.
Proof. unfold mul_column. by rewrite length_imap. Qed.

Lemma read_pose_returns (w : World) (pose_file : path) (pose : matrix) :
  read_pose w pose_file = Ok pose ->
  exists a,
    loadtxt w pose_file = Ok a /\
    length (concat a) = 16%nat /\
    pose = astype_float32 (flip_axes (rows_of 4 4 (concat a))).
Proof.
  unfold read_pose. intros H. inv_bind H. injection H as <-.
  match goal with E : reshape_4_4 _ = Ok _ |- _ => rename E into Hr end.
  unfold reshape_4_4 in Hr. case_decide; [|done]. injection Hr as <-. eauto.
Qed.

End PoseReading.

(** X7.  A pose file is accepted exactly when it holds 16 numbers, and they
    fill the 4x4 pose row by row: entry [(r, c)] of the reshaped array is
    number [4 r + c] of the file. *)
Theorem reshape_4_4_row_major (a : matrix) :
  length (concat a) = 16%nat ->
  exists m,
    reshape_4_4 a = Ok m /\
    shape_4_4 m /\
    forall r c, (r < 4)%nat -> (c < 4)%nat ->
      entry m r c = concat a !! (4 * r + c)%nat.
Proof.
  intros Hlen. exists (rows_of 4 4 (concat a)). repeat apply conj.
  - unfold reshape_4_4. by rewrite decide_True.
  - apply rows_of_length.
  - by apply rows_of_shape.
  - intros r c Hr Hc. unfold entry. rewrite rows_of_lookup by done. simpl.
    rewrite lookup_take_lt, lookup_drop by done. f_equal. lia.
Qed.

Lemma reshape_4_4_row_major_witness :
  exists m,
    reshape_4_4 (Samples.walk 3) = Ok m /\
    shape_4_4 m /\
    forall r c, (r < 4)%nat -> (c < 4)%nat ->
      entry m r c = concat (Samples.walk 3) !! (4 * r + c)%nat.
Proof. apply (reshape_4_4_row_major (Samples.walk 3)). reflexivity. Defined.

(** A pose file with another count of numbers is refused with
    [ValueError]. *)
Lemma reshape_4_4_wrong_count (a : matrix) :
  length (concat a) <> 16%nat ->
  reshape_4_4 a = Raise (ValueError "cannot reshape array into shape (4,4)").
Proof. intros H. unfold reshape_4_4. by rewrite decide_False. Qed.

(** X8.  Flipping twice gives the pose back: the conversion between the two
    camera conventions is its own inverse, on every matrix. *)
Theorem flip_axes_involutive (pose : matrix) : flip_axes (flip_axes pose) = pose.
Proof.
  apply list_eq. intros i. unfold flip_axes, mul_column.
  rewrite !list_lookup_imap.
  destruct (pose !! i) as [row|]; [|done]. simpl. f_equal.
  case_decide; [|done].
  rewrite (list_alter_alter_ne _ _ _ 1 2) by done.
  rewrite !list_alter_alter_eq.
  rewrite !list_alter_id; [done| |];
    intros v; simpl; by rewrite !fmul_neg1_r, fneg_involutive.
Qed.

(** Every pose the reader returns is a 4x4 array. *)
Lemma read_pose_shape (w : World) (pose_file : path) (pose : matrix) :
  read_pose w pose_file = Ok pose -> shape_4_4 pose.
Proof.
  intros H. apply read_pose_returns in H as (a & _ & Hlen & ->).
  unfold shape_4_4, astype_float32, flip_axes. split.
  - by rewrite length_fmap, !mul_column_length, rows_of_length.
  - apply Forall_fmap.
    eapply Forall_impl; [apply mul_column_shape, mul_column_shape,
                          (rows_of_shape 4 4); exact Hlen|].
    intros row Hrow. simpl. by rewrite length_fmap.
Qed.

(** X9.  The frame filter in terms of the file: a pose that was read is seen as
    holding an infinity exactly when one of the numbers of its file is an
    infinity or has a magnitude of at least [2^128 - 2^103]; the flip does
    not change which files are refused. *)
Theorem frame_dropped_iff_file_infinite (w : World) (pose_file : path)
    (a pose : matrix) :
  loadtxt w pose_file = Ok a ->
  read_pose w pose_file = Ok pose ->
  any_isinf pose = existsb (existsb infinite_as_float32) a.
Proof.
  intros Ha H. apply read_pose_returns in H as (a' & Ha' & Hlen & ->).
  rewrite Ha in Ha'. injection Ha' as <-.
  rewrite any_isinf_sanitized, existsb_rows_of by done.
  apply existsb_concat.
Qed.

Lemma frame_dropped_iff_file_infinite_witness :
  let w := Samples.scene 3 Samples.inf_walk Samples.no_points in
  exists pose,
    read_pose w (Samples.frame_file "pose" ".txt" 1) = Ok pose /\
    any_isinf pose = existsb (existsb infinite_as_float32) (Samples.inf_walk 1).
Proof.
  intros w. eexists. split; [vm_compute; reflexivity|].
  apply (frame_dropped_iff_file_infinite w (Samples.frame_file "pose" ".txt" 1));
    vm_compute; reflexivity.
Defined.

(** ** What [load_frames] hands on *)

Section LoadedFrames.

Lemma res_mapM_Forall2 {A B} (f : A -> res B) (l : list A) (bs : list B) :
  res_mapM f l = Ok bs -> Forall2 (fun a b => f a = Ok b) l bs.
Proof.
  revert bs. induction l as [|a l IH]; intros bs H.
  - injection H as <-. constructor.
  - cbn [res_mapM] in H. inv_bind H. injection H as <-. constructor; auto.
Qed.

Lemma sublist_fmap_mono {A B} (f : A -> B) (l1 l2 : list A) :
  l1 `sublist_of` l2 -> (f <$> l1) `sublist_of` (f <$> l2).
Proof.
  induction 1; rewrite ?fmap_cons; [constructor|by constructor|by constructor].
Qed.

Lemma fst_zip_sublist {A B} (l : list A) (k : list B) :
  (fst <$> zip l k) `sublist_of` l.
Proof.
  revert k. induction l as [|x l IH]; intros [|y k]; simpl;
    try apply sublist_nil_l.
  apply sublist_skip, IH.
Qed.

Lemma snd_zip_sublist {A B} (l : list A) (k : list B) :
  (snd <$> zip l k) `sublist_of` k.
Proof.
  revert k. induction l as [|x l IH]; intros [|y k]; simpl;
    try apply sublist_nil_l.
  apply sublist_skip, IH.
Qed.

Lemma load_frames_returns (config : ScanNetDataParserConfig) (w : World)
    (ld : loaded) :
  load_frames config w = Ok ld ->
  exists imgs depths pose_files first K,
    iterdir_sorted w (data config // "color") = Ok imgs /\
    iterdir_sorted w (data config // "depth") = Ok depths /\
    iterdir_sorted w (data config // "pose") = Ok pose_files /\
    imgs !! 0%nat = Some first /\
    imread_shape w first = Some (ld_height ld, ld_width ld) /\
    loadtxt w (data config // "intrinsic" // "intrinsic_color.txt") = Ok K /\
    frame_loop w K (zip3 imgs depths pose_files) no_frames = Ok (ld_frames ld).
Proof.
  unfold load_frames. intros H. inv_bind H. injection H as <-. simpl.
  match goal with E : py_index ?l 0 = Ok ?p |- _ =>
    rename E into Hfirst; rename l into imgs; rename p into first end.
  match goal with E : match imread_shape w first with _ => _ end = Ok ?x |- _ =>
    rename E into Hshape; rename x into hw end.
  exists imgs. do 2 eexists. exists first. eexists.
  repeat apply conj; try done.
  - unfold py_index in Hfirst. simpl in Hfirst.
    destruct imgs as [|p imgs']; [done|]. simpl in *. by injection Hfirst as <-.
  - destruct (imread_shape w first) as [[h wd]|]; [|done]. by injection Hshape as <-.
Qed.

Lemma frame_loop_returns (w : World) (K : matrix)
    (files : list (path * path * path)) (frames : frame_arrays) :
  frame_loop w K files no_frames = Ok frames ->
  exists ps,
    res_mapM (read_pose w) (snd <$> files) = Ok ps /\
    frames = frames_of K (kept_frames files ps).
Proof.
  rewrite frame_loop_acc. intros H. inv_bind H. injection H as <-. eauto.
Qed.

End LoadedFrames.

(** X10.  Every pose that [load_frames] hands on is a 4x4 array without an
    infinite entry, so the poses stacked at line 126 have one shape. *)
Theorem loaded_poses_shape (config : ScanNetDataParserConfig) (w : World)
    (ld : loaded) :
  load_frames config w = Ok ld ->
  Forall (fun pose => shape_4_4 pose /\ any_isinf pose = false)
         (fa_poses (ld_frames ld)).
Proof.
  intros H.
  apply load_frames_returns in H as (imgs & depths & pfs & _ & K & _ & _ & _ & _ & _ & _ & H).
  apply frame_loop_returns in H as (ps & Hps & ->). simpl.
  apply res_mapM_Forall2 in Hps.
  apply Forall_fmap, Forall_forall. intros [file pose] Hin.
  apply list_elem_of_filter in Hin as [Hinf Hin]. simpl in *.
  split; [|done].
  apply elem_of_zip_r in Hin.
  apply list_elem_of_lookup in Hin as [i Hi].
  destruct (Forall2_lookup_r _ _ _ _ _ Hps Hi) as (a & _ & Ha).
  by eapply read_pose_shape.
Qed.

Lemma loaded_poses_shape_witness :
  exists ld,
    load_frames Samples.config
      (Samples.scene 3 Samples.inf_walk Samples.no_points) = Ok ld /\
    length (fa_poses (ld_frames ld)) = 2%nat /\
    Forall (fun pose => shape_4_4 pose /\ any_isinf pose = false)
           (fa_poses (ld_frames ld)).
Proof.
  eexists. split; [vm_compute; reflexivity|]. split; [reflexivity|].
  apply (loaded_poses_shape Samples.config
           (Samples.scene 3 Samples.inf_walk Samples.no_points)).
  vm_compute. reflexivity.
Defined.

(** X11.  The image and depth paths that are kept are subsequences, in order, of
    the two sorted listings; the four arrays have one length, which is at
    most the length of the shortest of the three listings ([zip] stops
    there), and every intrinsics entry is the one matrix of
    [intrinsic_color.txt]. *)
Theorem loaded_frames_follow_listings (config : ScanNetDataParserConfig)
    (w : World) (ld : loaded) :
  load_frames config w = Ok ld ->
  exists imgs depths pose_files K,
    iterdir_sorted w (data config // "color") = Ok imgs /\
    iterdir_sorted w (data config // "depth") = Ok depths /\
    iterdir_sorted w (data config // "pose") = Ok pose_files /\
    loadtxt w (data config // "intrinsic" // "intrinsic_color.txt") = Ok K /\
    fa_image_filenames (ld_frames ld) `sublist_of` imgs /\
    fa_depth_filenames (ld_frames ld) `sublist_of` depths /\
    length (fa_depth_filenames (ld_frames ld))
    = length (fa_image_filenames (ld_frames ld)) /\
    length (fa_poses (ld_frames ld))
    = length (fa_image_filenames (ld_frames ld)) /\
    fa_intrinsics (ld_frames ld)
    = replicate (length (fa_image_filenames (ld_frames ld))) K /\
    (length (fa_image_filenames (ld_frames ld))
     <= Nat.min (Nat.min (length imgs) (length depths)) (length pose_files))%nat.
Proof.
  intros H.
  apply load_frames_returns in H
    as (imgs & depths & pfs & first & K & Hi & Hd & Hp & _ & _ & HK & H).
  apply frame_loop_returns in H as (ps & Hps & ->).
  exists imgs, depths, pfs, K. simpl.
  set (kept := kept_frames (zip3 imgs depths pfs) ps).
  assert (kept `sublist_of` zip (zip3 imgs depths pfs) ps) as Hsub
    by apply sublist_filter.
  assert (((fun x : path * path * path * matrix => x.1) <$> kept)
            `sublist_of` zip3 imgs depths pfs) as Hfiles.
  { etrans; [apply sublist_fmap_mono, Hsub|]. apply fst_zip_sublist. }
  assert (((fun x : path * path * path * matrix => x.1.1) <$> kept)
            `sublist_of` zip imgs depths) as Hpairs.
  { rewrite (list_fmap_compose (fun x : path * path * path * matrix => x.1) fst).
    etrans; [apply sublist_fmap_mono, Hfiles|]. apply fst_zip_sublist. }
  repeat apply conj; try done.
  - rewrite (list_fmap_compose (fun x : path * path * path * matrix => x.1.1) fst).
    etrans; [apply sublist_fmap_mono, Hpairs|]. apply fst_zip_sublist.
  - rewrite (list_fmap_compose (fun x : path * path * path * matrix => x.1.1) snd).
    etrans; [apply sublist_fmap_mono, Hpairs|]. apply snd_zip_sublist.
  - by rewrite !length_fmap.
  - by rewrite !length_fmap.
  - rewrite length_fmap. by apply const_fmap.
  - rewrite length_fmap. apply sublist_length in Hfiles.
    rewrite length_fmap in Hfiles. unfold zip3 in Hfiles.
    rewrite !length_zip in Hfiles. done.
Qed.

Lemma loaded_frames_follow_listings_witness :
  exists ld,
    load_frames Samples.config
      (Samples.scene 3 Samples.inf_walk Samples.no_points) = Ok ld /\
    fa_image_filenames (ld_frames ld)
    = Samples.frame_file "color" ".jpg" <$> [0; 2]%nat /\
    exists imgs depths pose_files K,
      iterdir_sorted (Samples.scene 3 Samples.inf_walk Samples.no_points)
        (data Samples.config // "color") = Ok imgs /\
      iterdir_sorted (Samples.scene 3 Samples.inf_walk Samples.no_points)
        (data Samples.config // "depth") = Ok depths /\
      iterdir_sorted (Samples.scene 3 Samples.inf_walk Samples.no_points)
        (data Samples.config // "pose") = Ok pose_files /\
      loadtxt (Samples.scene 3 Samples.inf_walk Samples.no_points)
        (data Samples.config // "intrinsic" // "intrinsic_color.txt") = Ok K /\
      fa_image_filenames (ld_frames ld) `sublist_of` imgs /\
      fa_depth_filenames (ld_frames ld) `sublist_of` depths /\
      length (fa_depth_filenames (ld_frames ld))
      = length (fa_image_filenames (ld_frames ld)) /\
      length (fa_poses (ld_frames ld))
      = length (fa_image_filenames (ld_frames ld)) /\
      fa_intrinsics (ld_frames ld)
      = replicate (length (fa_image_filenames (ld_frames ld))) K /\
      (length (fa_image_filenames (ld_frames ld))
       <= Nat.min (Nat.min (length imgs) (length depths)) (length pose_files))%nat.
Proof.
  eexists. split; [vm_compute; reflexivity|]. split; [reflexivity|].
  apply (loaded_frames_follow_listings Samples.config
           (Samples.scene 3 Samples.inf_walk Samples.no_points)).
  vm_compute. reflexivity.
Defined.

(** ** The bundle *)

Section Bundle.

(** The centring helper of [camera_utils], whatever it computes. *)
Variable aoc : string -> string -> list matrix -> res (list matrix * matrix).

Lemma assemble_inv (config : ScanNetDataParserConfig) (w : World)
    (ld : loaded) (indices : list Z) (intrinsics poses : list matrix)
    (T : matrix) (scale : fval) (out : DataparserOutputs) :
  assemble config w ld indices intrinsics poses T scale = Ok out ->
  exists imgs depth intr sel fxs fys cxs cys meta,
    gather (fa_image_filenames (ld_frames ld)) indices = Ok imgs /\
    gather_depth (ld_frames ld) indices = Ok depth /\
    gather intrinsics indices = Ok intr /\
    gather poses indices = Ok sel /\
    entry_slice 0 0 intr = Ok fxs /\
    entry_slice 1 1 intr = Ok fys /\
    entry_slice 0 2 intr = Ok cxs /\
    entry_slice 1 2 intr = Ok cys /\
    with_point_cloud config w T scale (depth_metadata config depth) = Ok meta /\
    out = {| image_filenames := imgs;
             cameras :=
               {| fx := fxs; fy := fys; cx := cxs; cy := cys;
                  height := ld_height ld; width := ld_width ld;
                  camera_to_worlds :=
                    (fun m : matrix => take 4 <$> take 3 m) <$> sel;
                  camera_type := PERSPECTIVE |};
             scene_box :=
               {| aabb := astype_float32
                            [ [fneg (scene_scale config); fneg (scene_scale config);
                               fneg (scene_scale config)];
                              [scene_scale config; scene_scale config;
                               scene_scale config] ] |};
             dataparser_scale := scale;
             dataparser_transform := T;
             metadata := meta |}.
Proof.
  unfold assemble. intros H. inv_bind H. injection H as <-.
  do 9 eexists. repeat apply conj; try eassumption; reflexivity.
Qed.

Lemma parse_inv (config : ScanNetDataParserConfig) (w : World)
    (split : string) (out : DataparserOutputs) :
  _generate_dataparser_outputs aoc config w split = Ok out ->
  exists ld indices c scale poses,
    load_frames config w = Ok ld /\
    split_indices config (ld_frames ld) split = Ok indices /\
    center_poses aoc config (ld_frames ld) = Ok c /\
    pose_scale_factor config (ct_poses c) = Ok scale /\
    scale_translations scale (ct_poses c) = Ok poses /\
    assemble config w ld indices (ct_intrinsics c) poses (ct_transform c) scale
    = Ok out.
Proof.
  unfold _generate_dataparser_outputs. intros H. inv_bind H. eauto 12.
Qed.

Lemma loaded_frames_lengths (config : ScanNetDataParserConfig) (w : World)
    (ld : loaded) :
  load_frames config w = Ok ld ->
  exists K,
    loadtxt w (data config // "intrinsic" // "intrinsic_color.txt") = Ok K /\
    fa_intrinsics (ld_frames ld)
    = replicate (length (fa_image_filenames (ld_frames ld))) K /\
    length (fa_depth_filenames (ld_frames ld))
    = length (fa_image_filenames (ld_frames ld)) /\
    length (fa_poses (ld_frames ld))
    = length (fa_image_filenames (ld_frames ld)).
Proof.
  intros H.
  apply load_frames_returns in H
    as (imgs & depths & pfs & first & K & _ & _ & _ & _ & _ & HK & H).
  apply frame_loop_returns in H as (ps & _ & ->).
  exists K. simpl. rewrite !length_fmap. repeat apply conj; try done.
  by apply const_fmap.
Qed.

Lemma train_eval_indices_no_images (f : Q) :
  train_eval_indices 0 (Fin f) = Ok ([], []).
Proof. by destruct f as [[|n|n] d]. Qed.

(** X12.  An empty colour directory makes the parser raise [IndexError] at line
    88, whatever the split, once the three directories have been listed. *)
Theorem empty_color_directory_raises (config : ScanNetDataParserConfig)
    (w : World) (split : string) (depths pose_files : list path) :
  iterdir_sorted w (data config // "color") = Ok [] ->
  iterdir_sorted w (data config // "depth") = Ok depths ->
  iterdir_sorted w (data config // "pose") = Ok pose_files ->
  _generate_dataparser_outputs aoc config w split = Raise IndexError.
Proof.
  intros Hc Hd Hp. unfold _generate_dataparser_outputs, load_frames.
  rewrite Hc. cbn [res_bind]. rewrite Hd. cbn [res_bind]. rewrite Hp. done.
Qed.

(** X13.  A first colour image that [cv2.imread] cannot decode makes the parser
    raise [AttributeError] at line 89: [None] has no [shape]. *)
Theorem undecodable_first_image_raises (config : ScanNetDataParserConfig)
    (w : World) (split : string) (imgs depths pose_files : list path)
    (first : path) :
  iterdir_sorted w (data config // "color") = Ok imgs ->
  iterdir_sorted w (data config // "depth") = Ok depths ->
  iterdir_sorted w (data config // "pose") = Ok pose_files ->
  imgs !! 0%nat = Some first ->
  imread_shape w first = None ->
  _generate_dataparser_outputs aoc config w split = Raise AttributeError.
Proof.
  intros Hc Hd Hp Hfirst Him. unfold _generate_dataparser_outputs, load_frames.
  rewrite Hc. cbn [res_bind]. rewrite Hd. cbn [res_bind]. rewrite Hp.
  cbn [res_bind]. destruct imgs as [|p imgs]; [done|].
  injection Hfirst as ->. unfold py_index. simpl. by rewrite Him.
Qed.

(** X14.  When the frames load but every pose was refused, a known split and a
    finite fraction lead to [ValueError] at line 126: there is nothing to
    stack. *)
Theorem no_valid_frame_raises (config : ScanNetDataParserConfig) (w : World)
    (split : string) (ld : loaded) (f : Q) :
  load_frames config w = Ok ld ->
  fa_poses (ld_frames ld) = [] ->
  train_split_fraction config = Fin f ->
  known_split split ->
  _generate_dataparser_outputs aoc config w split
  = Raise (ValueError "need at least one array to stack").
Proof.
  intros Hld Hposes Hf Hsplit.
  destruct (loaded_frames_lengths _ _ _ Hld) as (K & _ & _ & _ & Hlen).
  rewrite Hposes in Hlen. simpl in Hlen.
  unfold _generate_dataparser_outputs. rewrite Hld. cbn [res_bind].
  unfold split_indices. rewrite <- Hlen, Hf.
  change (Z.of_nat 0) with 0. rewrite train_eval_indices_no_images.
  cbn [res_bind fst snd].
  assert (select_split split [] [] = Ok []) as ->.
  { unfold select_split. destruct Hsplit as [-> | [-> | ->]]; done. }
  cbn [res_bind]. unfold center_poses. by rewrite Hposes.
Qed.

(** X15.  The scene box of a bundle depends on the configured scene scale only:
    it is the cuboid from [(-s, -s, -s)] to [(s, s, s)] for the
    single-precision value [s] of the scale, whatever the poses. *)
Theorem scene_box_symmetric (config : ScanNetDataParserConfig) (w : World)
    (split : string) (out : DataparserOutputs) :
  _generate_dataparser_outputs aoc config w split = Ok out ->
  let s := to_float32 (scene_scale config) in
  aabb (scene_box out) = [ [fneg s; fneg s; fneg s]; [s; s; s] ].
Proof.
  intros H s.
  apply parse_inv in H as (ld & indices & c & scale & poses & _ & _ & _ & _ & _ & H).
  apply assemble_inv in H
    as (? & ? & ? & ? & ? & ? & ? & ? & ? & _ & _ & _ & _ & _ & _ & _ & _ & _ & ->).
  simpl. by rewrite to_float32_fneg.
Qed.

(** X16.  The height and the width of the cameras are those of the first image
    of the sorted colour listing. *)
Theorem image_size_from_first_image (config : ScanNetDataParserConfig)
    (w : World) (split : string) (out : DataparserOutputs) :
  _generate_dataparser_outputs aoc config w split = Ok out ->
  exists imgs first,
    iterdir_sorted w (data config // "color") = Ok imgs /\
    head imgs = Some first /\
    imread_shape w first = Some (height (cameras out), width (cameras out)).
Proof.
  intros H.
  apply parse_inv in H as (ld & indices & c & scale & poses & Hld & _ & _ & _ & _ & H).
  apply assemble_inv in H
    as (? & ? & ? & ? & ? & ? & ? & ? & ? & _ & _ & _ & _ & _ & _ & _ & _ & _ & ->).
  apply load_frames_returns in Hld
    as (imgs & _ & _ & first & _ & Hi & _ & _ & Hfirst & Hshape & _).
  exists imgs, first. simpl. by rewrite head_lookup.
Qed.

Lemma load_3D_points_keys (w : World) (ply : path) (T : matrix) (s : fval)
    (color : bool) (d : gmap string meta_value) (key : string) :
  _load_3D_points w ply T s color = Ok (Some d) ->
  key <> "points3D_xyz" -> key <> "points3D_rgb" -> d !! key = None.
Proof.
  unfold _load_3D_points. case_decide; [done|]. intros Hl Hx Hr.
  inv_bind Hl. injection Hl as <-.
  destruct color.
  - rewrite lookup_insert_ne by done. by rewrite lookup_singleton_ne.
  - by rewrite lookup_singleton_ne.
Qed.

Lemma load_3D_points_empty (w : World) (ply : path) (T : matrix) (s : fval)
    (color : bool) :
  points (read_point_cloud w ply) = [] ->
  _load_3D_points w ply T s color = Ok None.
Proof. intros H. unfold _load_3D_points. by rewrite H. Qed.

Lemma depth_metadata_lookup (config : ScanNetDataParserConfig)
    (depth : list path) (key : string) :
  depth_metadata config depth !! key
  = if decide (key = "depth_filenames")
    then Some (if decide (0 < length depth)%nat then MPaths depth else MNone)
    else if decide (key = "depth_unit_scale_factor")
         then Some (MFloat (depth_unit_scale_factor config))
         else None.
Proof.
  unfold depth_metadata.
  destruct (decide (key = "depth_filenames")) as [->|Hk].
  - by rewrite lookup_insert_eq.
  - rewrite lookup_insert_ne by done.
    destruct (decide (key = "depth_unit_scale_factor")) as [->|Hk'].
    + by rewrite lookup_singleton_eq.
    + by rewrite lookup_singleton_ne.
Qed.

Lemma with_point_cloud_other_keys (config : ScanNetDataParserConfig)
    (w : World) (T : matrix) (s : fval) (base meta : gmap string meta_value)
    (key : string) :
  with_point_cloud config w T s base = Ok meta ->
  key <> "points3D_xyz" -> key <> "points3D_rgb" ->
  meta !! key = base !! key.
Proof.
  unfold with_point_cloud. intros H Hx Hr.
  destruct (load_3D_points config); [|by injection H as <-].
  inv_bind H.
  match goal with E : _load_3D_points _ _ _ _ _ = Ok ?r |- _ =>
    destruct r as [d|]; rename E into Hd end;
    injection H as <-; [|done].
  apply lookup_union_r. by eapply load_3D_points_keys.
Qed.

Lemma gather_nil_inv {A} (indices : list Z) (xs : list A) :
  gather [] indices = Ok xs -> indices = [] /\ xs = [].
Proof.
  destruct indices as [|i indices]; [by intros [= <-]|].
  unfold gather. cbn [res_mapM]. unfold py_index. simpl.
  by destruct (_ && _).
Qed.

Lemma gather_depth_length (frames : frame_arrays) (indices : list Z)
    (imgs depth : list path) :
  length (fa_depth_filenames frames) = length (fa_image_filenames frames) ->
  gather (fa_image_filenames frames) indices = Ok imgs ->
  gather_depth frames indices = Ok depth ->
  length depth = length imgs /\
  gather (fa_depth_filenames frames) indices = Ok depth.
Proof.
  intros Hlen Hi Hd. unfold gather_depth in Hd.
  case_decide as Hpos.
  - split; [|done]. apply res_mapM_length in Hi, Hd. congruence.
  - injection Hd as <-.
    destruct (fa_depth_filenames frames) as [|? ?] eqn:Hdf; [|simpl in Hpos; lia].
    destruct (fa_image_filenames frames) as [|? ?]; [|done].
    by apply gather_nil_inv in Hi as [-> ->].
Qed.

(** X17.  The depth paths of a bundle go with its image paths: they are taken
    at the same split indices and there are as many of them; the entry
    ["depth_filenames"] holds them, or [None] when the split selects no
    frame, and ["depth_unit_scale_factor"] holds the configured factor.
    Loading a point cloud never overwrites either entry. *)
Theorem metadata_depth_entries (config : ScanNetDataParserConfig) (w : World)
    (split : string) (out : DataparserOutputs) :
  _generate_dataparser_outputs aoc config w split = Ok out ->
  exists ld indices depth,
    load_frames config w = Ok ld /\
    split_indices config (ld_frames ld) split = Ok indices /\
    gather (fa_image_filenames (ld_frames ld)) indices
    = Ok (image_filenames out) /\
    gather (fa_depth_filenames (ld_frames ld)) indices = Ok depth /\
    length depth = length (image_filenames out) /\
    metadata out !! "depth_filenames"
    = Some (if decide (0 < length depth)%nat then MPaths depth else MNone) /\
    metadata out !! "depth_unit_scale_factor"
    = Some (MFloat (depth_unit_scale_factor config)).
Proof.
  intros H.
  apply parse_inv in H
    as (ld & indices & c & scale & poses & Hld & Hidx & _ & _ & _ & H).
  apply assemble_inv in H
    as (imgs & depth & ? & ? & ? & ? & ? & ? & meta
        & Hi & Hd & _ & _ & _ & _ & _ & _ & Hmeta & ->).
  destruct (loaded_frames_lengths _ _ _ Hld) as (K & _ & _ & Hlen & _).
  destruct (gather_depth_length _ _ _ _ Hlen Hi Hd) as [Hdl Hdg].
  exists ld, indices, depth. simpl. repeat apply conj; try done.
  - rewrite (with_point_cloud_other_keys _ _ _ _ _ _ _ Hmeta) by done.
    by rewrite depth_metadata_lookup.
  - rewrite (with_point_cloud_other_keys _ _ _ _ _ _ _ Hmeta) by done.
    by rewrite depth_metadata_lookup.
Qed.

(** X18.  Without a point cloud, because loading is switched off or because the
    file yields no point, the metadata of a bundle has the two depth
    entries and nothing else: no ["points3D_xyz"], no ["points3D_rgb"]. *)
Theorem metadata_without_point_cloud (config : ScanNetDataParserConfig)
    (w : World) (split : string) (out : DataparserOutputs) :
  _generate_dataparser_outputs aoc config w split = Ok out ->
  load_3D_points config = false \/
  points (read_point_cloud w (ply_file_path config)) = [] ->
  metadata out !! "points3D_xyz" = None /\
  metadata out !! "points3D_rgb" = None /\
  dom (metadata out) = {[ "depth_filenames"; "depth_unit_scale_factor" ]}.
Proof.
  intros H Hno.
  apply parse_inv in H
    as (ld & indices & c & scale & poses & _ & _ & _ & _ & _ & H).
  apply assemble_inv in H
    as (imgs & depth & ? & ? & ? & ? & ? & ? & meta
        & _ & _ & _ & _ & _ & _ & _ & _ & Hmeta & ->).
  simpl.
  assert (meta = depth_metadata config depth) as ->.
  { unfold with_point_cloud in Hmeta.
    destruct (load_3D_points config) eqn:Hload; [|by injection Hmeta as <-].
    destruct Hno as [|Hpts]; [done|].
    rewrite load_3D_points_empty in Hmeta by done. by injection Hmeta as <-. }
  rewrite !depth_metadata_lookup. repeat apply conj; done.
Qed.

(** X19.  With a non-empty point cloud, ["points3D_rgb"] is present exactly when
    colours are asked for; it then holds one row of three bytes (values in
    [0 .. 255]) per colour of the file, which need not be one per point. *)
Theorem metadata_point_colors (config : ScanNetDataParserConfig) (w : World)
    (split : string) (out : DataparserOutputs) :
  _generate_dataparser_outputs aoc config w split = Ok out ->
  load_3D_points config = true ->
  points (read_point_cloud w (ply_file_path config)) <> [] ->
  if point_cloud_color config then
    exists t,
      metadata out !! "points3D_rgb" = Some (MByteTensor t) /\
      length t = length (colors (read_point_cloud w (ply_file_path config))) /\
      Forall (fun row => length row = 3%nat /\
                          Forall (fun b => 0 <= b < 256) row) t
  else metadata out !! "points3D_rgb" = None.
Proof.
  intros H Hload Hpts.
  apply parse_inv in H
    as (ld & indices & c & scale & poses & _ & _ & _ & _ & _ & H).
  apply assemble_inv in H
    as (imgs & depth & ? & ? & ? & ? & ? & ? & meta
        & _ & _ & _ & _ & _ & _ & _ & _ & Hmeta & ->).
  simpl. unfold with_point_cloud in Hmeta. rewrite Hload in Hmeta.
  inv_bind Hmeta.
  match goal with E : _load_3D_points _ _ _ _ _ = Ok ?r |- _ =>
    rename E into Hd; rename r into r0 end.
  unfold _load_3D_points in Hd.
  rewrite decide_False in Hd by (by destruct (points _)).
  inv_bind Hd. injection Hd as <-. injection Hmeta as <-.
  destruct (point_cloud_color config).
  - eexists. split; [|split].
    + apply lookup_union_Some_l. apply lookup_insert_eq.
    + by rewrite !length_fmap.
    + apply Forall_fmap, Forall_fmap, Forall_forall. intros [[r g] b] _.
      simpl. split; [done|].
      repeat constructor; unfold astype_uint8;
        match goal with |- context [fmul ?c ?k] => destruct (fmul c k) end;
        try lia; apply Z.mod_pos_bound; lia.
  - rewrite lookup_union_r by (by rewrite lookup_singleton_ne).
    by rewrite depth_metadata_lookup.
Qed.

Lemma py_index_elem_of {A} (l : list A) (i : Z) (a : A) :
  py_index l i = Ok a -> a ∈ l.
Proof.
  unfold py_index. destruct (_ && _); [|done].
  destruct (l !! _) eqn:Hl; [|done]. intros [= <-].
  by eapply list_elem_of_lookup_2.
Qed.

Lemma gather_elem_of {A} (l : list A) (indices : list Z) (xs : list A) :
  gather l indices = Ok xs -> Forall (fun x => x ∈ l) xs.
Proof.
  intros H. apply res_mapM_Forall2 in H.
  induction H as [|i x indices xs Hi _ IH]; constructor; [|done].
  by eapply py_index_elem_of.
Qed.

Lemma py_index_in_range {A} (l : list A) (i : Z) :
  0 <= i < Z.of_nat (length l) -> exists a, py_index l i = Ok a.
Proof.
  intros Hi. unfold py_index.
  rewrite (proj2 (Z.ltb_ge i 0)) by lia.
  rewrite (proj2 (Z.leb_le 0 i)), (proj2 (Z.ltb_lt i _)) by lia. simpl.
  destruct (lookup_lt_is_Some_2 l (Z.to_nat i)) as [a ->]; [lia|]. eauto.
Qed.

Lemma gather_in_range {A} (l : list A) (indices : list Z) :
  Forall (fun i => 0 <= i < Z.of_nat (length l)) indices ->
  exists xs, gather l indices = Ok xs.
Proof.
  unfold gather. induction 1 as [|i indices Hi _ [xs IH]]; [by eexists|].
  destruct (py_index_in_range l i Hi) as [a Ha].
  cbn [res_mapM]. rewrite Ha, IH. by eexists.
Qed.

Lemma split_indices_range (config : ScanNetDataParserConfig)
    (frames : frame_arrays) (split : string) (indices : list Z) :
  split_indices config frames split = Ok indices ->
  StronglySorted Z.lt indices /\
  Forall (fun i => 0 <= i < Z.of_nat (length (fa_image_filenames frames)))
         indices.
Proof.
  unfold split_indices. intros H. inv_bind H.
  match goal with E : train_eval_indices _ _ = Ok ?p |- _ =>
    destruct p as [tr ev]; rename E into Hte end.
  apply train_eval_indices_Ok_inv in Hte
    as (k & _ & _ & _ & Hsort & Hin & Hev & _).
  unfold select_split in H. simpl in H. repeat case_decide; try done;
    injection H as <-.
  - split; [done|]. eapply Forall_impl; [exact Hin|]. simpl. intros; lia.
  - rewrite Hev. split; [apply StronglySorted_filter, StronglySorted_seqZ|].
    apply Forall_forall. intros x Hx.
    apply list_elem_of_filter in Hx as [_ Hx]. unfold arange in Hx.
    apply elem_of_seqZ in Hx. lia.
Qed.

Lemma entry_slice_Forall2 (r c : nat) (l : list matrix) (vs : list fval) :
  entry_slice r c l = Ok vs ->
  Forall2 (fun m v => entry m r c = Some v) l vs.
Proof.
  intros H. apply res_mapM_Forall2 in H.
  eapply Forall2_impl; [exact H|]. intros m v Hm. unfold entry. simpl in Hm.
  destruct (m !! r) as [row|]; [|done]. simpl.
  by destruct (row !! c); [injection Hm as <-|].
Qed.

Lemma entry_slice_constant (r c : nat) (l : list matrix) (m0 : matrix)
    (vs : list fval) :
  Forall (fun m => m = m0) l ->
  entry_slice r c l = Ok vs ->
  Forall (fun v => entry m0 r c = Some v) vs.
Proof.
  intros Hall Hvs. apply entry_slice_Forall2 in Hvs. revert Hall.
  induction Hvs as [|m v l' vs' Hm _ IH]; intros Hall; [constructor|].
  apply Forall_cons in Hall as [-> Hall]. constructor; auto.
Qed.

Lemma entry_slice_is_Some (r c : nat) (l : list matrix) :
  Forall (fun m => is_Some (entry m r c)) l ->
  exists vs, entry_slice r c l = Ok vs.
Proof.
  unfold entry_slice. induction 1 as [|m l [v Hm] _ [vs IH]]; [by eexists|].
  cbn [res_mapM]. rewrite IH. unfold entry in Hm.
  destruct (m !! r) as [row|]; [|done]. simpl in Hm. rewrite Hm. by eexists.
Qed.

Lemma entry_astype_float32 (m : matrix) (r c : nat) :
  entry (astype_float32 m) r c = to_float32 <$> entry m r c.
Proof.
  unfold entry, astype_float32. rewrite list_lookup_fmap.
  destruct (m !! r) as [row|]; [|done]. simpl. by rewrite list_lookup_fmap.
Qed.

Lemma np_stack_float32_returns (arrays stacked : list matrix) :
  np_stack_float32 arrays = Ok stacked ->
  arrays <> [] /\ stacked = astype_float32 <$> arrays.
Proof. destruct arrays; [done|]. by intros [= <-]. Qed.

Lemma center_poses_returns (config : ScanNetDataParserConfig)
    (frames : frame_arrays) (c : centered) :
  center_poses aoc config frames = Ok c ->
  fa_poses frames <> [] /\
  ct_intrinsics c = astype_float32 <$> fa_intrinsics frames /\
  aoc "none" (center_method config) (astype_float32 <$> fa_poses frames)
  = Ok (ct_poses c, ct_transform c).
Proof.
  unfold center_poses. intros H. inv_bind H. injection H as <-. simpl.
  repeat match goal with E : np_stack_float32 _ = Ok _ |- _ =>
    apply np_stack_float32_returns in E as [? ->] end.
  repeat apply conj; try done.
  match goal with E : aoc _ _ _ = Ok ?p |- _ => by destruct p end.
Qed.

(** X20.  The per-camera arrays of a bundle go in lockstep: there is one image
    path, one focal length pair, one principal point and one camera matrix
    per selected index, and the selected indices are distinct positions of
    the frame arrays in ascending order. *)
Theorem bundle_arrays_lockstep (config : ScanNetDataParserConfig) (w : World)
    (split : string) (out : DataparserOutputs) :
  _generate_dataparser_outputs aoc config w split = Ok out ->
  exists ld indices,
    load_frames config w = Ok ld /\
    split_indices config (ld_frames ld) split = Ok indices /\
    StronglySorted Z.lt indices /\
    Forall (fun i => 0 <= i < Z.of_nat (length (fa_image_filenames (ld_frames ld))))
           indices /\
    length (image_filenames out) = length indices /\
    length (fx (cameras out)) = length indices /\
    length (fy (cameras out)) = length indices /\
    length (cx (cameras out)) = length indices /\
    length (cy (cameras out)) = length indices /\
    length (camera_to_worlds (cameras out)) = length indices.
Proof.
  intros H.
  apply parse_inv in H
    as (ld & indices & c & scale & poses & Hld & Hidx & _ & _ & _ & H).
  apply assemble_inv in H
    as (imgs & depth & intr & sel & fxs & fys & cxs & cys & meta
        & Hi & _ & Hin & Hsel & Hfx & Hfy & Hcx & Hcy & _ & ->).
  destruct (split_indices_range _ _ _ _ Hidx) as [Hsort Hrange].
  apply res_mapM_length in Hi, Hin, Hsel, Hfx, Hfy, Hcx, Hcy.
  exists ld, indices. simpl. rewrite length_fmap.
  repeat apply conj; try done; congruence.
Qed.

(** X21.  Every camera of a bundle has the intrinsics of the one file
    [intrinsic/intrinsic_color.txt], in single precision: [fx] is its
    entry (0,0), [fy] its entry (1,1), [cx] its entry (0,2) and [cy] its
    entry (1,2). *)
Theorem cameras_share_intrinsics (config : ScanNetDataParserConfig)
    (w : World) (split : string) (out : DataparserOutputs) :
  _generate_dataparser_outputs aoc config w split = Ok out ->
  exists K,
    loadtxt w (data config // "intrinsic" // "intrinsic_color.txt") = Ok K /\
    Forall (fun v => to_float32 <$> entry K 0 0 = Some v) (fx (cameras out)) /\
    Forall (fun v => to_float32 <$> entry K 1 1 = Some v) (fy (cameras out)) /\
    Forall (fun v => to_float32 <$> entry K 0 2 = Some v) (cx (cameras out)) /\
    Forall (fun v => to_float32 <$> entry K 1 2 = Some v) (cy (cameras out)).
Proof.
  intros H.
  apply parse_inv in H
    as (ld & indices & c & scale & poses & Hld & _ & Hc & _ & _ & H).
  apply assemble_inv in H
    as (imgs & depth & intr & sel & fxs & fys & cxs & cys & meta
        & _ & _ & Hin & _ & Hfx & Hfy & Hcx & Hcy & _ & ->).
  destruct (loaded_frames_lengths _ _ _ Hld) as (K & HK & HKs & _).
  apply center_poses_returns in Hc as (_ & Hci & _).
  exists K. split; [done|]. simpl.
  assert (Forall (fun m => m = astype_float32 K) intr) as Hall.
  { apply gather_elem_of in Hin. eapply Forall_impl; [exact Hin|].
    simpl. intros m Hm. rewrite Hci, HKs, fmap_replicate in Hm.
    by apply elem_of_replicate_inv in Hm. }
  assert (forall r col vs, entry_slice r col intr = Ok vs ->
            Forall (fun v => to_float32 <$> entry K r col = Some v) vs) as Hsl.
  { intros r col vs Hvs. rewrite <- entry_astype_float32.
    by eapply entry_slice_constant. }
  repeat apply conj; by apply Hsl.
Qed.

(** X22.  The failures of the gathering stage are ruled out by what precedes it:
    once the frames are loaded, the split indices computed, the poses
    centred into as many poses with a column 3 in their first three rows,
    the scale computed, the intrinsics matrix holding the four entries
    read, and the point cloud absent, empty or matched by a transform with
    rows of four entries, the parser returns a bundle.  In particular no
    split index is ever out of range. *)
Theorem parser_returns (config : ScanNetDataParserConfig) (w : World)
    (split : string) (ld : loaded) (indices : list Z) (c : centered)
    (t : list (list fval)) (scale : fval) (K : matrix) :
  load_frames config w = Ok ld ->
  split_indices config (ld_frames ld) split = Ok indices ->
  center_poses aoc config (ld_frames ld) = Ok c ->
  length (ct_poses c) = length (fa_poses (ld_frames ld)) ->
  column_slice 3 3 (ct_poses c) = Ok t ->
  pose_scale_factor config (ct_poses c) = Ok scale ->
  loadtxt w (data config // "intrinsic" // "intrinsic_color.txt") = Ok K ->
  is_Some (entry K 0 0) -> is_Some (entry K 1 1) ->
  is_Some (entry K 0 2) -> is_Some (entry K 1 2) ->
  (load_3D_points config = false \/
   points (read_point_cloud w (ply_file_path config)) = [] \/
   (ct_transform c <> [] /\
    Forall (fun row : list fval => length row = 4%nat) (ct_transform c))) ->
  exists out, _generate_dataparser_outputs aoc config w split = Ok out.
Proof.
  intros Hld Hidx Hc Hlen Ht Hscale HK H00 H11 H02 H12 Hpcd.
  destruct (loaded_frames_lengths _ _ _ Hld) as (K' & HK' & HKs & Hdl & Hpl).
  rewrite HK in HK'. injection HK' as <-.
  destruct (split_indices_range _ _ _ _ Hidx) as [_ Hrange].
  pose proof (center_poses_returns _ _ _ Hc) as (_ & Hci & _).
  set (N := length (fa_image_filenames (ld_frames ld))) in *.
  assert (forall A (l : list A), length l = N -> exists xs, gather l indices = Ok xs)
    as Hgather.
  { intros A l Hl. apply gather_in_range. by rewrite Hl. }
  destruct (Hgather _ (fa_image_filenames (ld_frames ld)) eq_refl) as [imgs Hi].
  assert (exists depth,
            (if decide (0 < length (fa_depth_filenames (ld_frames ld)))%nat
             then gather (fa_depth_filenames (ld_frames ld)) indices
             else Ok []) = Ok depth) as [depth Hd].
  { case_decide; [by apply Hgather|by eexists]. }
  destruct (Hgather _ (ct_intrinsics c)) as [intr Hin].
  { by rewrite Hci, length_fmap, HKs, length_replicate. }
  destruct (Hgather _ (mul_column 3 3 scale <$> ct_poses c)) as [sel Hsel].
  { rewrite length_fmap. congruence. }
  assert (Forall (fun m => m = astype_float32 K) intr) as Hall.
  { apply gather_elem_of in Hin. eapply Forall_impl; [exact Hin|].
    simpl. intros m Hm. rewrite Hci, HKs, fmap_replicate in Hm.
    by apply elem_of_replicate_inv in Hm. }
  assert (forall r col, is_Some (entry K r col) ->
            exists vs, entry_slice r col intr = Ok vs) as Hsl.
  { intros r col [v Hv]. apply entry_slice_is_Some.
    eapply Forall_impl; [exact Hall|]. simpl. intros m ->.
    rewrite entry_astype_float32, Hv. by eexists. }
  destruct (Hsl _ _ H00) as [fxs Hfx]. destruct (Hsl _ _ H11) as [fys Hfy].
  destruct (Hsl _ _ H02) as [cxs Hcx]. destruct (Hsl _ _ H12) as [cys Hcy].
  unfold _generate_dataparser_outputs.
  rewrite Hld. cbn [res_bind]. rewrite Hidx. cbn [res_bind].
  rewrite Hc. cbn [res_bind]. rewrite Hscale. cbn [res_bind].
  unfold scale_translations. rewrite Ht. cbn [res_bind].
  unfold assemble. rewrite Hi. cbn [res_bind]. rewrite Hd. cbn [res_bind].
  rewrite Hin. cbn [res_bind]. rewrite Hsel. cbn [res_bind].
  rewrite Hfx. cbn [res_bind]. rewrite Hfy. cbn [res_bind].
  rewrite Hcx. cbn [res_bind]. rewrite Hcy. cbn [res_bind].
  destruct (load_3D_points config) eqn:Hload; [|by eexists].
  destruct Hpcd as [|[Hempty|[HT Hrows]]]; [done| |].
  - rewrite load_3D_points_empty by done. by eexists.
  - destruct (decide (points (read_point_cloud w (ply_file_path config)) = []))
      as [Hempty|Hne].
    + rewrite load_3D_points_empty by done. by eexists.
    + destruct (load_3D_points_xyz w (ply_file_path config) (ct_transform c)
                  scale (point_cloud_color config) Hne HT Hrows) as (d & -> & _).
      by eexists.
Qed.

End Bundle.

Lemma no_valid_frame_raises_witness :
  Samples.parse Samples.config
    (Samples.scene 2 (fun _ => replicate 4 (replicate 4 NInf)) Samples.no_points)
    "train"
  = Raise (ValueError "need at least one array to stack").
Proof.
  refine (no_valid_frame_raises _ Samples.config _ "train" _ (9 # 10) _ _ _ _).
  - vm_compute. reflexivity.
  - reflexivity.
  - reflexivity.
  - by left.
Defined.

Lemma empty_color_directory_raises_witness :
  Samples.parse Samples.config (Samples.scene 0 Samples.walk Samples.no_points)
    "train"
  = Raise IndexError.
Proof.
  refine (empty_color_directory_raises _ Samples.config _ "train" [] [] _ _ _);
    reflexivity.
Defined.

Lemma undecodable_first_image_raises_witness :
  let w := Samples.scene 2 Samples.walk Samples.no_points in
  let w' := {| iterdir_sorted := iterdir_sorted w;
               imread_shape := fun _ => None;
               loadtxt := loadtxt w;
               read_point_cloud := read_point_cloud w |} in
  Samples.parse Samples.config w' "val" = Raise AttributeError.
Proof.
  intros w w'.
  refine (undecodable_first_image_raises _ Samples.config w' "val" _ _ _ _ _ _ _ _ _).
  - vm_compute. reflexivity.
  - vm_compute. reflexivity.
  - vm_compute. reflexivity.
  - reflexivity.
  - reflexivity.
Defined.

Lemma scene_box_symmetric_witness :
  exists out,
    Samples.parse Samples.config
      (Samples.scene 10 Samples.walk Samples.no_points) "train" = Ok out /\
    aabb (scene_box out)
    = [ [Fin (-1); Fin (-1); Fin (-1)]; [Fin 1; Fin 1; Fin 1] ].
Proof.
  eexists. split; [vm_compute; reflexivity|].
  apply (scene_box_symmetric
           (auto_orient_and_center_poses_model Samples.no_focus) Samples.config
           (Samples.scene 10 Samples.walk Samples.no_points) "train").
  vm_compute. reflexivity.
Defined.

Lemma image_size_from_first_image_witness :
  let w := Samples.scene 10 Samples.walk Samples.no_points in
  exists out,
    Samples.parse Samples.config w "train" = Ok out /\
    exists imgs first,
      iterdir_sorted w (data Samples.config // "color") = Ok imgs /\
      head imgs = Some first /\
      imread_shape w first = Some (height (cameras out), width (cameras out)).
Proof.
  intros w. eexists. split; [vm_compute; reflexivity|].
  apply (image_size_from_first_image
           (auto_orient_and_center_poses_model Samples.no_focus) Samples.config
           w "train").
  vm_compute. reflexivity.
Defined.

Lemma metadata_depth_entries_witness :
  let w := Samples.scene 10 Samples.walk Samples.three_points in
  exists out,
    Samples.parse Samples.config w "val" = Ok out /\
    metadata out !! "depth_filenames"
    = Some (MPaths [Samples.frame_file "depth" ".png" 8]) /\
    exists ld indices depth,
      load_frames Samples.config w = Ok ld /\
      split_indices Samples.config (ld_frames ld) "val" = Ok indices /\
      gather (fa_image_filenames (ld_frames ld)) indices
      = Ok (image_filenames out) /\
      gather (fa_depth_filenames (ld_frames ld)) indices = Ok depth /\
      length depth = length (image_filenames out) /\
      metadata out !! "depth_filenames"
      = Some (if decide (0 < length depth)%nat then MPaths depth else MNone) /\
      metadata out !! "depth_unit_scale_factor"
      = Some (MFloat (depth_unit_scale_factor Samples.config)).
Proof.
  intros w. eexists. split; [vm_compute; reflexivity|].
  split; [vm_compute; reflexivity|].
  apply (metadata_depth_entries
           (auto_orient_and_center_poses_model Samples.no_focus)
           Samples.config w "val").
  vm_compute. reflexivity.
Defined.

Lemma metadata_without_point_cloud_witness :
  let w := Samples.scene 10 Samples.walk Samples.no_points in
  exists out,
    Samples.parse Samples.config w "train" = Ok out /\
    metadata out !! "points3D_xyz" = None /\
    metadata out !! "points3D_rgb" = None /\
    dom (metadata out) = {[ "depth_filenames"; "depth_unit_scale_factor" ]}.
Proof.
  intros w. eexists. split; [vm_compute; reflexivity|].
  apply (metadata_without_point_cloud
           (auto_orient_and_center_poses_model Samples.no_focus)
           Samples.config w "train").
  - vm_compute. reflexivity.
  - right. reflexivity.
Defined.

Lemma metadata_point_colors_witness :
  let w := Samples.scene 10 Samples.walk Samples.three_points in
  exists out,
    Samples.parse Samples.config w "train" = Ok out /\
    exists t,
      metadata out !! "points3D_rgb" = Some (MByteTensor t) /\
      length t = length (colors Samples.three_points) /\
      Forall (fun row => length row = 3%nat /\
                          Forall (fun b => 0 <= b < 256) row) t.
Proof.
  intros w. eexists. split; [vm_compute; reflexivity|].
  apply (metadata_point_colors
           (auto_orient_and_center_poses_model Samples.no_focus)
           Samples.config w "train").
  - vm_compute. reflexivity.
  - reflexivity.
  - discriminate.
Defined.

Lemma bundle_arrays_lockstep_witness :
  let w := Samples.scene 10 Samples.walk Samples.three_points in
  exists out,
    Samples.parse Samples.config w "train" = Ok out /\
    exists ld indices,
      load_frames Samples.config w = Ok ld /\
      split_indices Samples.config (ld_frames ld) "train" = Ok indices /\
      StronglySorted Z.lt indices /\
      Forall (fun i => 0 <= i
                       < Z.of_nat (length (fa_image_filenames (ld_frames ld))))
             indices /\
      length (image_filenames out) = length indices /\
      length (fx (cameras out)) = length indices /\
      length (fy (cameras out)) = length indices /\
      length (cx (cameras out)) = length indices /\
      length (cy (cameras out)) = length indices /\
      length (camera_to_worlds (cameras out)) = length indices.
Proof.
  intros w. eexists. split; [vm_compute; reflexivity|].
  apply (bundle_arrays_lockstep
           (auto_orient_and_center_poses_model Samples.no_focus)
           Samples.config w "train").
  vm_compute. reflexivity.
Defined.

Lemma cameras_share_intrinsics_witness :
  let w := Samples.scene 10 Samples.walk Samples.three_points in
  exists out,
    Samples.parse Samples.config w "val" = Ok out /\
    fx (cameras out) = [Fin 1170] /\
    exists K,
      loadtxt w (data Samples.config // "intrinsic" // "intrinsic_color.txt")
      = Ok K /\
      Forall (fun v => to_float32 <$> entry K 0 0 = Some v) (fx (cameras out)) /\
      Forall (fun v => to_float32 <$> entry K 1 1 = Some v) (fy (cameras out)) /\
      Forall (fun v => to_float32 <$> entry K 0 2 = Some v) (cx (cameras out)) /\
      Forall (fun v => to_float32 <$> entry K 1 2 = Some v) (cy (cameras out)).
Proof.
  intros w. eexists. split; [vm_compute; reflexivity|].
  split; [reflexivity|].
  apply (cameras_share_intrinsics
           (auto_orient_and_center_poses_model Samples.no_focus)
           Samples.config w "val").
  vm_compute. reflexivity.
Defined.

Lemma parser_returns_witness :
  let w := Samples.scene 10 Samples.walk Samples.three_points in
  exists out, Samples.parse Samples.config w "train" = Ok out.
Proof.
  intros w.
  refine (parser_returns (auto_orient_and_center_poses_model Samples.no_focus)
            Samples.config w "train" _ _ _ _ _ _ _ _ _ _ _ _ _ _ _ _ _ _).
  - vm_compute. reflexivity.
  - vm_compute. reflexivity.
  - vm_compute. reflexivity.
  - reflexivity.
  - vm_compute. reflexivity.
  - vm_compute. reflexivity.
  - vm_compute. reflexivity.
  - by eexists.
  - by eexists.
  - by eexists.
  - by eexists.
  - right. right. split; [discriminate|]. vm_compute. repeat constructor.
Defined.

(** ** The scale *)

Section Scale.

Lemma fmax_nan_l (v : fval) : fmax NaN v = NaN.
Proof. by destruct v. Qed.

Lemma fmax_nan_r (v : fval) : fmax v NaN = NaN.
Proof. by destruct v. Qed.

Lemma fmul_nan_r (v : fval) : fmul v NaN = NaN.
Proof. by destruct v. Qed.

Lemma foldl_fmax_nan (l : list fval) : foldl fmax NaN l = NaN.
Proof.
  induction l as [|v l IH]; [done|]. cbn [foldl]. by rewrite fmax_nan_l.
Qed.

Lemma foldl_fmax_elem_nan (l : list fval) (v : fval) :
  NaN ∈ l -> foldl fmax v l = NaN.
Proof.
  revert v. induction l as [|x l IH]; intros v Hin.
  - by apply elem_of_nil in Hin.
  - cbn [foldl]. apply elem_of_cons in Hin as [<-|Hin].
    + by rewrite fmax_nan_r, foldl_fmax_nan.
    + by apply IH.
Qed.

(** [torch.max] of a tensor that holds a NaN is NaN. *)
Lemma torch_max_nan (l : list fval) : NaN ∈ l -> torch_max l = Ok NaN.
Proof.
  destruct l as [|v l]; [by intros ?%elem_of_nil|].
  intros [<-|Hin]%elem_of_cons; simpl; f_equal.
  - apply foldl_fmax_nan.
  - by apply foldl_fmax_elem_nan.
Qed.

Lemma Forall_concat_2 {A} (P : A -> Prop) (ls : list (list A)) :
  Forall (Forall P) ls -> Forall P (concat ls).
Proof.
  induction 1 as [|l ls Hl _ IH]; [constructor|]. simpl. by apply Forall_app.
Qed.

Lemma Forall_concat_1 {A} (P : A -> Prop) (ls : list (list A)) :
  Forall P (concat ls) -> Forall (Forall P) ls.
Proof.
  induction ls as [|l ls IH]; [constructor|]. simpl.
  intros [? ?]%Forall_app. constructor; auto.
Qed.

Lemma foldl_fmax_finite (l : list fval) (a : Q) :
  Forall (fun v => isfinite v = true) l ->
  exists M, foldl fmax (Fin a) (fabs <$> l) = Fin M /\ (a <= M)%Q /\
    Forall (fun v => exists q, v = Fin q /\ (Qabs q <= M)%Q) l.
Proof.
  intros Hl. revert a. induction Hl as [|v l Hv _ IH]; intros a.
  - exists a. repeat split; [apply Qle_refl|constructor].
  - destruct v as [q| | |]; try done. rewrite fmap_cons. cbn [foldl fabs fmax].
    destruct (Qle_bool a (Qabs q)) eqn:Hle.
    + apply Qle_bool_iff in Hle.
      destruct (IH (Qabs q)) as (M & HM & HaM & Hall).
      exists M. repeat split; [done|by eapply Qle_trans|].
      constructor; [by exists q|done].
    + assert (Qabs q <= a)%Q as Hle'.
      { apply Qnot_lt_le. intros Hlt. apply Qlt_le_weak in Hlt.
        apply Qle_bool_iff in Hlt. congruence. }
      destruct (IH a) as (M & HM & HaM & Hall).
      exists M. repeat split; [done|done|].
      constructor; [|done]. exists q. split; [done|]. by eapply Qle_trans.
Qed.

(** The maximum of the absolute values of finite numbers is a finite
    number that bounds each of them. *)
Lemma torch_max_finite (l : list fval) (m : fval) :
  Forall (fun v => isfinite v = true) l ->
  torch_max (fabs <$> l) = Ok m ->
  exists M, m = Fin M /\ (0 <= M)%Q /\
    Forall (fun v => exists q, v = Fin q /\ (Qabs q <= M)%Q) l.
Proof.
  intros Hl Hm. destruct l as [|v l]; [done|].
  apply Forall_cons in Hl as [Hv Hl]. destruct v as [q| | |]; try done.
  rewrite fmap_cons in Hm. cbn [torch_max fabs] in Hm. injection Hm as <-.
  destruct (foldl_fmax_finite l (Qabs q) Hl) as (M & HM & HqM & Hall).
  exists M. repeat split; [done| |].
  - eapply Qle_trans; [apply Qabs_nonneg|done].
  - constructor; [by exists q|done].
Qed.

Lemma take_imap_below {A} (n : nat) (g : A -> A) (l : list A) :
  take n (imap (fun r x => if decide (r < n)%nat then g x else x) l)
  = g <$> take n l.
Proof.
  revert n. induction l as [|x l IH]; intros [|n]; try done.
  rewrite imap_cons. cbn [take]. rewrite fmap_cons.
  rewrite decide_True by lia. f_equal.
  rewrite <- IH. f_equal. apply imap_ext. intros i y _. simpl.
  destruct (decide (S i < S n)%nat), (decide (i < n)%nat); (done || lia).
Qed.

Lemma column_3_altered (f : fval -> fval) (rows : list (list fval))
    (vs : list fval) :
  res_mapM (fun row : list fval =>
              match row !! 3%nat with
              | Some v => Ok v
              | None => Raise IndexError
              end) rows = Ok vs ->
  res_mapM (fun row : list fval =>
              match row !! 3%nat with
              | Some v => Ok v
              | None => Raise IndexError
              end) (alter f 3%nat <$> rows)
  = Ok (f <$> vs).
Proof.
  revert vs. induction rows as [|row rows IH]; intros vs H.
  - by injection H as <-.
  - rewrite fmap_cons. cbn [res_mapM] in *. inv_bind H. injection H as <-.
    rewrite list_lookup_alter_eq.
    destruct (row !! 3%nat) as [v|]; [|done].
    match goal with E : Ok v = Ok _ |- _ => injection E as <- end.
    cbn [fmap option_fmap option_map res_bind].
    erewrite IH by reflexivity. done.
Qed.

Lemma column_3_scaled (s : fval) (m : matrix) (vs : list fval) :
  res_mapM (fun row : list fval =>
              match row !! 3%nat with
              | Some v => Ok v
              | None => Raise IndexError
              end) (take 3 m) = Ok vs ->
  res_mapM (fun row : list fval =>
              match row !! 3%nat with
              | Some v => Ok v
              | None => Raise IndexError
              end) (take 3 (mul_column 3 3 s m))
  = Ok ((fun v => fmul v s) <$> vs).
Proof.
  intros H. unfold mul_column.
  rewrite (take_imap_below 3 (alter (fun v => fmul v s) 3%nat) m).
  by apply column_3_altered.
Qed.

Lemma column_slice_scaled (s : fval) (poses : list matrix)
    (t : list (list fval)) :
  column_slice 3 3 poses = Ok t ->
  column_slice 3 3 (mul_column 3 3 s <$> poses)
  = Ok ((fun vs : list fval => (fun v => fmul v s) <$> vs) <$> t).
Proof.
  unfold column_slice. revert t.
  induction poses as [|m poses IH]; intros t H.
  - by injection H as <-.
  - rewrite fmap_cons. cbn [res_mapM] in *. inv_bind H. injection H as <-.
    erewrite column_3_scaled by eassumption. cbn [res_bind].
    erewrite IH by reflexivity. done.
Qed.

Lemma scaled_into_unit_box (q M : Q) :
  (Qabs q <= M)%Q -> ~ (M == 0)%Q -> (Qabs (q * (1 / M * 1)) <= 1)%Q.
Proof.
  intros Hq HM.
  assert (0 < M)%Q as Hpos.
  { assert (0 <= M)%Q as H0 by (eapply Qle_trans; [apply Qabs_nonneg|done]).
    apply Qle_lteq in H0 as [|Heq]; [done|]. by symmetry in Heq. }
  assert (0 <= 1 / M * 1)%Q as Hs.
  { rewrite Qmult_1_r. apply Qle_shift_div_l; [done|].
    rewrite Qmult_0_l. discriminate. }
  rewrite Qabs_Qmult, (Qabs_pos _ Hs).
  assert (Qabs q * (1 / M * 1) == Qabs q / M)%Q as -> by (field; done).
  apply Qle_shift_div_r; [done|]. by rewrite Qmult_1_l.
Qed.

End Scale.

(** X23.  With auto-scaling on, the multiplier 1 and finite translations, every
    translation component of every pose lies in [[-1, 1]] after line 141:
    the poses fit the +/- 1 box the option is documented to give. *)
Theorem auto_scale_fits_unit_box (config : ScanNetDataParserConfig)
    (poses scaled : list matrix) (t : list (list fval)) (scale : fval) :
  auto_scale_poses config = true ->
  scale_factor config = Fin 1 ->
  column_slice 3 3 poses = Ok t ->
  Forall (Forall (fun v => isfinite v = true)) t ->
  pose_scale_factor config poses = Ok scale ->
  scale_translations scale poses = Ok scaled ->
  exists t',
    column_slice 3 3 scaled = Ok t' /\
    Forall (Forall in_unit_box) t'.
Proof.
  intros Hauto Hmult Ht Hfin Hscale Hscaled.
  unfold scale_translations in Hscaled. rewrite Ht in Hscaled.
  cbn [res_bind] in Hscaled. injection Hscaled as <-.
  unfold pose_scale_factor in Hscale. rewrite Hauto, Ht, Hmult in Hscale.
  cbn [res_bind] in Hscale. inv_bind Hscale. injection Hscale as <-.
  match goal with E : res_bind (torch_max _) _ = Ok _ |- _ => rename E into Hdiv end.
  inv_bind Hdiv.
  match goal with E : torch_max _ = Ok ?x |- _ => rename E into Hmax; rename x into m end.
  apply Forall_concat_2 in Hfin.
  destruct (torch_max_finite _ _ Hfin Hmax) as (M & -> & HM0 & Hall).
  unfold py_truediv in Hdiv. destruct (is_zero (Fin M)) eqn:Hz; [done|].
  injection Hdiv as <-. cbn [fdiv fmul].
  assert (~ (M == 0)%Q) as HM.
  { intros Heq. apply Qeq_bool_iff in Heq. simpl in Hz. congruence. }
  eexists. split; [by apply column_slice_scaled|].
  apply Forall_concat_1 in Hall.
  apply Forall_fmap. eapply Forall_impl; [exact Hall|]. simpl.
  intros vs Hvs. apply Forall_fmap. eapply Forall_impl; [exact Hvs|]. simpl.
  intros v (q & -> & Hq). exists (q * (1 / M * 1))%Q. split; [done|].
  by apply scaled_into_unit_box.
Qed.

Lemma auto_scale_fits_unit_box_witness :
  let poses := Samples.walk <$> [1; 4; 9]%nat in
  exists t',
    column_slice 3 3 (mul_column 3 3 (Fin (1 # 18)) <$> poses) = Ok t' /\
    Forall (Forall in_unit_box) t'.
Proof.
  intros poses.
  refine (auto_scale_fits_unit_box Samples.config poses _ _ (Fin (1 # 18))
            _ _ _ _ _ _).
  - reflexivity.
  - reflexivity.
  - vm_compute. reflexivity.
  - vm_compute. repeat constructor.
  - vm_compute. reflexivity.
  - vm_compute. reflexivity.
Defined.

Section NaNPoses.

(** The centring helper of [camera_utils], whatever it computes. *)
Variable aoc : string -> string -> list matrix -> res (list matrix * matrix).

(** X24.  A NaN among the translations of the centred poses is not an error
    with auto-scaling on: the run can return, and then the scale of the
    bundle is NaN and so is every translation component of every camera,
    including the cameras of frames whose own pose was finite. *)
Theorem nan_translation_poisons_bundle (config : ScanNetDataParserConfig)
    (w : World) (split : string) (ld : loaded) (c : centered)
    (t : list (list fval)) (out : DataparserOutputs) :
  load_frames config w = Ok ld ->
  center_poses aoc config (ld_frames ld) = Ok c ->
  auto_scale_poses config = true ->
  column_slice 3 3 (ct_poses c) = Ok t ->
  NaN ∈ concat t ->
  _generate_dataparser_outputs aoc config w split = Ok out ->
  dataparser_scale out = NaN /\
  Forall (fun cam : matrix =>
            forall r v, (r < 3)%nat -> entry cam r 3 = Some v -> v = NaN)
         (camera_to_worlds (cameras out)).
Proof.
  intros Hld Hc Hauto Ht Hnan Hout.
  apply parse_inv in Hout
    as (ld' & indices & c' & scale & poses & Hld' & _ & Hc' & Hscale & Hpos & H).
  rewrite Hld in Hld'. injection Hld' as <-.
  rewrite Hc in Hc'. injection Hc' as <-.
  assert (scale = NaN) as ->.
  { unfold pose_scale_factor in Hscale. rewrite Hauto, Ht in Hscale.
    cbn [res_bind] in Hscale.
    rewrite (torch_max_nan (fabs <$> concat t)) in Hscale
      by (by apply (list_elem_of_fmap_2' fabs _ NaN)).
    cbn [res_bind] in Hscale. by injection Hscale as <-. }
  apply assemble_inv in H
    as (imgs & depth & intr & sel & fxs & fys & cxs & cys & meta
        & _ & _ & _ & Hsel & _ & _ & _ & _ & _ & ->).
  simpl. split; [done|].
  unfold scale_translations in Hpos. rewrite Ht in Hpos.
  cbn [res_bind] in Hpos. injection Hpos as <-.
  rewrite gather_fmap in Hsel. inv_bind Hsel. injection Hsel as <-.
  apply Forall_fmap, Forall_fmap, Forall_forall. intros pose _ r v Hr.
  simpl. rewrite entry_camera_block, entry_mul_column by lia.
  rewrite decide_True by done.
  destruct (entry pose r 3) as [v0|]; [|done]. simpl. intros [= <-].
  apply fmul_nan_r.
Qed.

End NaNPoses.

Lemma nan_translation_poisons_bundle_witness :
  let w := Samples.scene 3 Samples.nan_walk Samples.no_points in
  exists out,
    Samples.parse Samples.config w "train" = Ok out /\
    length (camera_to_worlds (cameras out)) = 3%nat /\
    dataparser_scale out = NaN /\
    Forall (fun cam : matrix =>
              forall r v, (r < 3)%nat -> entry cam r 3 = Some v -> v = NaN)
           (camera_to_worlds (cameras out)).
Proof.
  intros w. eexists. split; [vm_compute; reflexivity|].
  split; [reflexivity|].
  refine (nan_translation_poisons_bundle
            (auto_orient_and_center_poses_model Samples.no_focus)
            Samples.config w "train" _ _ _ _ _ _ _ _ _ _).
  - vm_compute. reflexivity.
  - vm_compute. reflexivity.
  - reflexivity.
  - vm_compute. reflexivity.
  - vm_compute. constructor.
  - vm_compute. reflexivity.
Defined.

(** ** The two splits together *)

Section SplitsTogether.

(** The centring helper of [camera_utils], whatever it computes. *)
Variable aoc : string -> string -> list matrix -> res (list matrix * matrix).

Lemma omap_ext_elem {A B} (f g : A -> option B) (l : list A) :
  (forall x, x ∈ l -> f x = g x) -> omap f l = omap g l.
Proof.
  intros H. apply list_omap_ext, Forall2_same_length_lookup.
  split; [done|]. intros i x y Hx Hy. rewrite Hx in Hy. injection Hy as <-.
  apply H. by eapply list_elem_of_lookup_2.
Qed.

Lemma gather_omap {A} (l : list A) (indices : list Z) (xs : list A) :
  Forall (fun i => 0 <= i) indices ->
  gather l indices = Ok xs ->
  xs = omap (fun i => l !! Z.to_nat i) indices.
Proof.
  unfold gather. intros Hpos. revert xs.
  induction Hpos as [|i indices Hi _ IH]; intros xs H.
  - by injection H as <-.
  - cbn [res_mapM] in H. inv_bind H. injection H as <-.
    match goal with E : py_index l i = Ok ?a |- _ => rename E into Ha end.
    unfold py_index in Ha. rewrite (proj2 (Z.ltb_ge i 0)) in Ha by lia.
    destruct (_ && _); [|done].
    destruct (l !! Z.to_nat i) as [a'|] eqn:Hl; [|done]. injection Ha as ->.
    change (omap ?f (i :: indices)) with
      (match f i with Some y => y :: omap f indices | None => omap f indices end).
    simpl. rewrite Hl. f_equal. by apply IH.
Qed.

Lemma omap_lookup_arange {A} (l : list A) :
  omap (fun i => l !! Z.to_nat i) (arange (Z.of_nat (length l))) = l.
Proof.
  unfold arange. induction l as [|x l IH] using rev_ind; [done|].
  rewrite length_app, Nat.add_1_r, seqZ_S, omap_app. f_equal.
  - etrans; [|exact IH]. apply omap_ext_elem. intros i Hi.
    apply elem_of_seqZ in Hi. apply lookup_app_l. lia.
  - simpl. replace (Z.to_nat (0 + Z.of_nat (length l))) with (length l) by lia.
    by rewrite list_lookup_middle.
Qed.

Lemma train_eval_indices_Permutation (N : Z) (f : fval) (i_train i_eval : list Z) :
  train_eval_indices N f = Ok (i_train, i_eval) ->
  i_train ++ i_eval ≡ₚ arange N.
Proof.
  intros H. apply train_eval_indices_Ok_inv in H
    as (k & _ & _ & _ & Hsort & Hin & -> & _).
  rewrite <- (filter_app_complement (fun x => x ∈ i_train) (arange N)) at 2.
  f_equiv. symmetry. apply NoDup_Permutation.
  - apply NoDup_filter, NoDup_seqZ.
  - by apply StronglySorted_lt_NoDup.
  - intros x. rewrite list_elem_of_filter. unfold arange. rewrite elem_of_seqZ.
    rewrite Forall_forall in Hin. split; [by intros [? _]|].
    intros Hx. split; [done|]. specialize (Hin _ Hx). lia.
Qed.

(** X25.  A training run and an evaluation run on one scene share the frames out
    between them: the image paths of the two bundles, put together, are
    the image paths of all valid frames, each valid frame once. *)
Theorem splits_cover_valid_frames (config : ScanNetDataParserConfig)
    (w : World) (split : string) (ld : loaded) (out_train out_eval : DataparserOutputs) :
  split = "val" \/ split = "test" ->
  load_frames config w = Ok ld ->
  _generate_dataparser_outputs aoc config w "train" = Ok out_train ->
  _generate_dataparser_outputs aoc config w split = Ok out_eval ->
  image_filenames out_train ++ image_filenames out_eval
  ≡ₚ fa_image_filenames (ld_frames ld).
Proof.
  intros Hsplit Hld Htr Hev.
  apply parse_inv in Htr
    as (ld1 & i1 & ? & ? & ? & Hld1 & Hi1 & _ & _ & _ & H1).
  apply parse_inv in Hev
    as (ld2 & i2 & ? & ? & ? & Hld2 & Hi2 & _ & _ & _ & H2).
  rewrite Hld in Hld1, Hld2. injection Hld1 as <-. injection Hld2 as <-.
  apply assemble_inv in H1
    as (imgs1 & ? & ? & ? & ? & ? & ? & ? & ? & Hg1 & _ & _ & _ & _ & _ & _ & _ & _ & ->).
  apply assemble_inv in H2
    as (imgs2 & ? & ? & ? & ? & ? & ? & ? & ? & Hg2 & _ & _ & _ & _ & _ & _ & _ & _ & ->).
  simpl.
  pose proof (split_indices_range _ _ _ _ Hi1) as [_ Hr1].
  pose proof (split_indices_range _ _ _ _ Hi2) as [_ Hr2].
  unfold split_indices in Hi1, Hi2. inv_bind Hi1.
  match goal with E : train_eval_indices _ _ = Ok ?p |- _ =>
    destruct p as [tr ev]; rename E into Hte end.
  cbn [res_bind fst snd] in Hi1, Hi2.
  rewrite select_split_train in Hi1. injection Hi1 as <-.
  rewrite select_split_eval in Hi2 by done. injection Hi2 as <-.
  apply gather_omap in Hg1; [|eapply Forall_impl; [exact Hr1|]; simpl; intros; lia].
  apply gather_omap in Hg2; [|eapply Forall_impl; [exact Hr2|]; simpl; intros; lia].
  rewrite Hg1, Hg2, <- omap_app.
  rewrite (train_eval_indices_Permutation _ _ _ _ Hte).
  by rewrite omap_lookup_arange.
Qed.

End SplitsTogether.

Lemma splits_cover_valid_frames_witness :
  let w := Samples.scene 10 Samples.inf_walk Samples.no_points in
  exists ld out_train out_eval,
    load_frames Samples.config w = Ok ld /\
    Samples.parse Samples.config w "train" = Ok out_train /\
    Samples.parse Samples.config w "test" = Ok out_eval /\
    length (fa_image_filenames (ld_frames ld)) = 9%nat /\
    image_filenames out_train ++ image_filenames out_eval
    ≡ₚ fa_image_filenames (ld_frames ld).
Proof.
  intros w. eexists _, _, _.
  split; [vm_compute; reflexivity|]. split; [vm_compute; reflexivity|].
  split; [vm_compute; reflexivity|]. split; [reflexivity|].
  refine (splits_cover_valid_frames
            (auto_orient_and_center_poses_model Samples.no_focus)
            Samples.config w "test" _ _ _ _ _ _ _).
  - by right.
  - vm_compute. reflexivity.
  - vm_compute. reflexivity.
  - vm_compute. reflexivity.
Defined.

(** ** The point-cloud loader on its own *)

(** X26.  For a non-empty cloud and a transform whose rows have four entries,
    the loader returns one row per point with one entry per row of the
    transform (three for a 3x4 transform), and entry [j] of point
    [(x, y, z)] is [(x a + y b + z c + d) * scale] for row [(a, b, c, d)] of
    the transform: the appended 1 turns the last column into a translation
    that is added before the scaling. *)
Theorem loaded_points_affine (w : World) (ply : path) (T : matrix) (s : fval)
    (color : bool) :
  points (read_point_cloud w ply) <> [] ->
  T <> [] ->
  Forall (fun row : list fval => length row = 4%nat) T ->
  exists d xyz,
    _load_3D_points w ply T s color = Ok (Some d) /\
    d !! "points3D_xyz" = Some (MTensor xyz) /\
    length xyz = length (points (read_point_cloud w ply)) /\
    Forall (fun row : list fval => length row = length T) xyz /\
    forall i j x y z a b c e,
      points (read_point_cloud w ply) !! i = Some (x, y, z) ->
      T !! j = Some [a; b; c; e] ->
      entry xyz i j
      = Some (fmul (fadd (fmul (to_float32 x) a)
                      (fadd (fmul (to_float32 y) b)
                         (fadd (fmul (to_float32 z) c) e))) s).
Proof.
  intros Hpts HT Hrows.
  destruct (load_3D_points_xyz w ply T s color Hpts HT Hrows) as (d & Hd & Hxyz).
  exists d. eexists. split; [done|]. split; [exact Hxyz|].
  split; [by rewrite !length_fmap|]. split.
  - apply Forall_fmap, Forall_fmap, Forall_forall. intros p _. simpl.
    unfold transformed_point. by rewrite length_fmap.
  - intros i j x y z a b c e Hi Hj. unfold entry.
    rewrite !list_lookup_fmap, Hi. simpl.
    unfold transformed_point. rewrite list_lookup_fmap, Hj. simpl.
    do 2 f_equal. apply dot_homogeneous.
Qed.

Lemma loaded_points_affine_witness :
  let w := Samples.scene 1 Samples.walk Samples.three_points in
  let T := [ [Fin 1; Fin 0; Fin 0; Fin (-1)]; [Fin 0; Fin 1; Fin 0; Fin (-2)];
             [Fin 0; Fin 0; Fin 1; Fin 5] ] in
  exists d xyz,
    _load_3D_points w Samples.root T (Fin (1 # 2)) false = Ok (Some d) /\
    d !! "points3D_xyz" = Some (MTensor xyz) /\
    length xyz = 3%nat /\
    Forall (fun row : list fval => length row = 3%nat) xyz /\
    forall i j x y z a b c e,
      points Samples.three_points !! i = Some (x, y, z) ->
      T !! j = Some [a; b; c; e] ->
      entry xyz i j
      = Some (fmul (fadd (fmul (to_float32 x) a)
                      (fadd (fmul (to_float32 y) b)
                         (fadd (fmul (to_float32 z) c) e))) (Fin (1 # 2))).
Proof.
  intros w T.
  apply (loaded_points_affine w Samples.root T (Fin (1 # 2)) false).
  - discriminate.
  - discriminate.
  - repeat constructor.
Defined.

(** X27.  A transform that is not four columns wide cannot be applied to the
    homogeneous points: the loader raises [RuntimeError] at line 224 for
    every non-empty cloud. *)
Theorem loader_rejects_transform_width (w : World) (ply : path) (T : matrix)
    (s : fval) (color : bool) (c : nat) :
  points (read_point_cloud w ply) <> [] ->
  T <> [] ->
  Forall (fun row : list fval => length row = c) T ->
  c <> 4%nat ->
  _load_3D_points w ply T s color = Raise RuntimeError.
Proof.
  intros Hpts HT Hrows Hc. unfold _load_3D_points.
  rewrite decide_False by (by destruct (points _)).
  rewrite homogeneous_points. unfold matmul.
  rewrite (transpose_length T c) by done.
  rewrite decide_False; [done|]. intros Hall.
  destruct (points (read_point_cloud w ply)) as [|[[x y] z] pts]; [done|].
  rewrite !fmap_cons in Hall. apply Forall_cons in Hall as [Hlen _].
  simpl in Hlen. lia.
Qed.

Lemma loader_rejects_transform_width_witness :
  _load_3D_points (Samples.scene 1 Samples.walk Samples.three_points)
    Samples.root
    [ [Fin 1; Fin 0; Fin 0]; [Fin 0; Fin 1; Fin 0]; [Fin 0; Fin 0; Fin 1] ]
    (Fin 1) true
  = Raise RuntimeError.
Proof.
  apply (loader_rejects_transform_width _ _ _ _ _ 3).
  - discriminate.
  - discriminate.
  - repeat constructor.
  - lia.
Defined.
